(** * Provider plugin cache service (terraform/cache/services/provider.go)

    A shallow embedding of the provider cache: path derivation, the
    warm-up procedure, archive cleanup, the deduplicating enqueue, the
    readiness lookup and the worker loop with its readiness gate.

    The file system is an explicit finite map from (lexically cleaned)
    paths to nodes; the collaborators whose outcome depends on the outside
    world (lock acquisition, fetch, unzip) are read from an environment
    record. *)

From Stdlib Require Import String Ascii List Bool Arith Lia.
From stdpp Require Import base option list strings gmap.



(** ** Lexical path functions of Go's [path/filepath] (Unix separator) *)

Module Filepath.

Definition Separator : ascii := "/"%char.

Definition is_sep (c : ascii) : bool := Ascii.eqb c Separator.

(** [strings.Split(s, "/")]: the fields of [s] between separators; a
    string without separator is its own single field. *)
Fixpoint split_sep (s : string) : list string :=
  match s with
  | EmptyString => [EmptyString]
  | String c r =>
      if is_sep c then EmptyString :: split_sep r
      else match split_sep r with
           | x :: xs => String c x :: xs
           | [] => [String c EmptyString]
           end
  end.

(** [strings.Join(elems, "/")]. *)
Fixpoint join_sep (elems : list string) : string :=
  match elems with
  | [] => EmptyString
  | [x] => x
  | x :: rest => x +:+ String Separator (join_sep rest)
  end.

(** One element of the scan of [Clean]; [stack] holds the elements kept
    so far, innermost first.  Empty and [.] elements are dropped; [..]
    removes the element before it, is dropped at the root, and is kept
    at the head of a relative path. *)
Definition clean_step (rooted : bool) (stack : list string) (c : string)
  : list string :=
  if String.eqb c "" || String.eqb c "." then stack
  else if String.eqb c ".." then
    match stack with
    | top :: rest =>
        if String.eqb top ".." then (if rooted then stack else c :: stack)
        else rest
    | [] => if rooted then [] else [c]
    end
  else c :: stack.

Definition is_rooted (path : string) : bool :=
  match path with
  | String c _ => is_sep c
  | EmptyString => false
  end.

Definition clean_elems (path : string) : list string :=
  rev (fold_left (clean_step (is_rooted path)) (split_sep path) []).

(** [filepath.Clean]. *)
Definition Clean (path : string) : string :=
  if String.eqb path "" then "."
  else
    let body := join_sep (clean_elems path) in
    if is_rooted path then String Separator body
    else if String.eqb body "" then "." else body.

(** [filepath.Join]: leading empty elements are ignored, the rest is
    joined with the separator and cleaned; all empty gives the empty
    string. *)
Fixpoint Join (elems : list string) : string :=
  match elems with
  | [] => ""
  | e :: rest => if String.eqb e "" then Join rest else Clean (join_sep elems)
  end.

(** [filepath.Base]: the last element of the path, trailing separators
    removed; [.] for the empty path and the separator for a path of
    separators only. *)
Definition Base (path : string) : string :=
  if String.eqb path "" then "."
  else match List.filter (fun c => negb (String.eqb c "")) (rev (split_sep path)) with
       | c :: _ => c
       | [] => String Separator ""
       end.

(** [a] is a proper prefix of [b]. *)
Definition proper_prefix (a b : string) : Prop :=
  String.prefix a b = true /\ a <> b.

(** [path] contains no separator. *)
Fixpoint no_sep (path : string) : bool :=
  match path with
  | EmptyString => true
  | String c r => negb (is_sep c) && no_sep r
  end.

(** An element that [Clean] keeps as it is: a single name, not empty and
    not a dot element. *)
Definition plain (p : string) : Prop :=
  no_sep p = true /\ p <> "" /\ p <> "." /\ p <> "..".

End Filepath.


(** ** Provider identity (package [models]) *)

Module URL.

(** The parts of [net/url.URL] the cache reads. *)
Record t := mk { Scheme : string; Host : string; Path : string }.

Definition String (u : t) : string :=
  Scheme u +:+ "://" +:+ Host u +:+ Path u.

End URL.

Module Provider.

Record t := mk {
  RegistryName : string;
  Namespace : string;
  Name : string;
  Version : string;
  OS : string;
  Arch : string;
  DownloadURL : option URL.t
}.

(** Modelled from the spec: [models.Provider.Match] is not part of the
    sources at hand.  "Two Providers are considered the same cache target
    when all identity fields match (download URL is excluded from
    matching)"; the identity is registry host, namespace, type/name,
    version and target platform (OS and architecture). *)
Definition Match (provider target : t) : bool :=
  String.eqb (RegistryName provider) (RegistryName target)
  && String.eqb (Namespace provider) (Namespace target)
  && String.eqb (Name provider) (Name target)
  && String.eqb (Version provider) (Version target)
  && String.eqb (OS provider) (OS target)
  && String.eqb (Arch provider) (Arch target).

(** Modelled from the spec: [models.Provider.Path] is not part of the
    sources at hand.  The identity path is host/namespace/type/version. *)
Definition Path (provider : t) : string :=
  Filepath.Join [RegistryName provider; Namespace provider;
                 Name provider; Version provider].

(** Modelled from the spec: [models.Provider.Platform] is not part of the
    sources at hand.  The platform string names the OS/architecture pair
    in one path element, as the provisioning engine's plugin directory
    does: the OS, an underscore, the architecture. *)
Definition Platform (provider : t) : string :=
  OS provider +:+ "_" +:+ Arch provider.

End Provider.

(** ** Errors *)

Inductive Errno := ENOENT | EEXIST | ENOTDIR | ENOTEMPTY | ELOOP.

Inductive error :=
  | PathError (op path : string) (errno : Errno)
  | LockTimeout (path : string)
  | DownloadURLUndefined (provider : Provider.t)
  | FetchError (url dest : string)
  | UnzipError (archive : string)
  | CacheDirNotSpecified.

(** ** File system *)

Inductive node :=
  | Dir
  | File
  | Symlink (target : string).

Abbreviation FS := (gmap string node).

Module Os.

Definition Lstat (path : string) (fs : FS) : option node :=
  if String.eqb path "" then None else fs !! path.

(** Symbolic links are followed at most [MAXSYMLINKS] times. *)
Definition MAXSYMLINKS : nat := 40.

Fixpoint follow (fuel : nat) (path : string) (fs : FS) : option node :=
  match Lstat path fs with
  | Some (Symlink target) =>
      match fuel with
      | O => None
      | S fuel' => follow fuel' target fs
      end
  | r => r
  end.

Definition Stat (path : string) (fs : FS) : option node :=
  follow MAXSYMLINKS path fs.

Fixpoint drop_while {A} (f : A -> bool) (l : list A) : list A :=
  match l with
  | x :: r => if f x then drop_while f r else l
  | [] => []
  end.

(** The directory part MkdirAll recurses on: the path without its last
    element and the separator before it; none for a single element or an
    element directly under the root. *)
Definition parent (path : string) : option string :=
  let r := rev (list_ascii_of_string path) in
  let r1 := drop_while Filepath.is_sep r in
  let r2 := drop_while (fun c => negb (Filepath.is_sep c)) r1 in
  match r2 with
  | _ :: ((_ :: _) as rest) => Some (string_of_list_ascii (rev rest))
  | _ => None
  end.

(** Paths strictly below the directory [path]. *)
Definition below (path : string) : string :=
  match rev (list_ascii_of_string path) with
  | c :: _ => if Filepath.is_sep c then path else path +:+ "/"
  | [] => path
  end.

Definition has_entries (path : string) (fs : FS) : bool :=
  existsb (fun kv => String.prefix (below path) (fst kv)
                     && negb (String.eqb (fst kv) path))
          (map_to_list fs).

Definition Mkdir (path : string) (fs : FS) : error + FS :=
  match Lstat path fs with
  | Some _ => inl (PathError "mkdir" path EEXIST)
  | None =>
      if String.eqb path "" then inl (PathError "mkdir" path ENOENT)
      else inr (<[path := Dir]> fs)
  end.

Fixpoint MkdirAll_from (fuel : nat) (path : string) (fs : FS) : error + FS :=
  match Stat path fs with
  | Some Dir => inr fs
  | Some _ => inl (PathError "mkdir" path ENOTDIR)
  | None =>
      match fuel with
      | O => inl (PathError "mkdir" path ENOENT)
      | S fuel' =>
          let made :=
            match parent path with
            | Some dir => MkdirAll_from fuel' dir fs
            | None => inr fs
            end in
          match made with
          | inl e => inl e
          | inr fs1 =>
              match Mkdir path fs1 with
              | inr fs2 => inr fs2
              | inl e =>
                  match Lstat path fs1 with
                  | Some Dir => inr fs1
                  | _ => inl e
                  end
              end
          end
      end
  end.

(** [os.MkdirAll]: the recursion is on the parent, a strictly shorter
    path, so the length of the path bounds it. *)
Definition MkdirAll (path : string) (fs : FS) : error + FS :=
  MkdirAll_from (String.length path) path fs.

(** [os.Symlink(oldname, newname)]. *)
Definition Symlink (oldname newname : string) (fs : FS) : error + FS :=
  match Lstat newname fs with
  | Some _ => inl (PathError "symlink" newname EEXIST)
  | None =>
      if String.eqb newname "" then inl (PathError "symlink" newname ENOENT)
      else inr (<[newname := Symlink oldname]> fs)
  end.

(** [os.Remove]: removes a file, a link or an empty directory. *)
Definition Remove (path : string) (fs : FS) : error + FS :=
  match Lstat path fs with
  | None => inl (PathError "remove" path ENOENT)
  | Some Dir =>
      if has_entries path fs then inl (PathError "remove" path ENOTEMPTY)
      else inr (delete path fs)
  | Some _ => inr (delete path fs)
  end.

End Os.

Module Util.

(** Modelled from the spec: [util.FileExists] is not part of the sources
    at hand.  "Filesystem existence check: exists(path) -> bool"; a path
    exists when it can be stat'ed, which follows links and fails on the
    empty path. *)
Definition FileExists (path : string) (fs : FS) : bool :=
  match Os.Stat path fs with
  | Some _ => true
  | None => false
  end.

End Util.

(** ** Collaborators: lock file, fetch, unzip, configuration directory *)

Inductive FetchOutcome :=
  | Fetched
  | FetchFailed (partial : bool).

(** What the outside world answers: whether the [i]-th attempt on a lock
    file finds it free, how a download ends, which entries an archive
    unpacks to and whether unpacking completes, and the CLI configuration
    directory. *)
Record Env := mkEnv {
  lock_free : string -> nat -> bool;
  fetch_outcome : string -> string -> FetchOutcome;
  unzip_outcome : string -> list string * bool;
  config_dir : error + string
}.

Module Lockfile.

Fixpoint retry (attempts : nat) (try : nat -> bool) (i : nat) : bool :=
  match attempts with
  | O => false
  | S n => if try i then true else retry n try (S i)
  end.

(** Modelled from the spec: [util.AcquireLockfile] is not part of the
    sources at hand.  "acquire(path, maxRetries, retryDelay) -> handle |
    error": cross-process advisory exclusion on a path with bounded
    retries and fixed backoff; exceeding the budget is an error.  Taking
    the lock leaves the lock file on disk. *)
Definition AcquireLockfile (env : Env) (path : string) (maxRetries : nat)
    (fs : FS) : option error * FS :=
  if retry (S maxRetries) (lock_free env path) 0 then
    match Os.Lstat path fs with
    | Some Dir => (Some (PathError "open" path ENOTDIR), fs)
    | Some _ => (None, fs)
    | None =>
        if String.eqb path "" then (Some (PathError "open" path ENOENT), fs)
        else (None, <[path := File]> fs)
    end
  else (Some (LockTimeout path), fs).

End Lockfile.

(** Modelled from the spec: [util.FetchFile] is not part of the sources at
    hand.  "fetch(url, destPath) -> error": retrieve a URL to a file; a
    failed transfer may leave a partial file at the destination. *)
Definition FetchFile (env : Env) (url dest : string) (fs : FS)
  : option error * FS :=
  match fetch_outcome env url dest with
  | Fetched => (None, <[dest := File]> fs)
  | FetchFailed partial =>
      (Some (FetchError url dest), if partial then <[dest := File]> fs else fs)
  end.

(** go-getter's [ZipDecompressor.Decompress(dst, src, dir, umask)]: the
    archive must be a readable file; the destination directory is created
    and the entries are written below it in order, an error part-way
    leaving the entries written so far. *)
Definition Decompress (env : Env) (dst src : string) (fs : FS)
  : option error * FS :=
  match Os.Stat src fs with
  | Some File =>
      match Os.MkdirAll dst fs with
      | inl e => (Some e, fs)
      | inr fs1 =>
          let '(entries, ok) := unzip_outcome env src in
          let fs2 :=
            fold_left (fun acc e => <[Filepath.Join [dst; e] := File]> acc)
                      entries fs1 in
          (if ok then None else Some (UnzipError src), fs2)
      end
  | _ => (Some (UnzipError src), fs)
  end.

Definition retryDelayLockfile : nat := 5.
Definition maxRetriesLockfile : nat := 60.

(** ** Cache units and the service *)

Module ProviderCache.

(** The embedded service pointer is passed to the methods instead. *)
Record t := mk {
  Provider : Provider.t;
  needCacheArchive : bool;
  ready : bool
}.

Definition set_needCacheArchive (b : bool) (cache : t) : t :=
  mk (Provider cache) b (ready cache).

Definition set_ready (b : bool) (cache : t) : t :=
  mk (Provider cache) (needCacheArchive cache) b.

End ProviderCache.

Abbreviation ProviderCaches := (list ProviderCache.t).

(** The unbuffered dispatch channel: whether it is closed and the values
    handed over so far, as positions in the tracked collection (the
    collection holds pointers and only grows). *)
Record chan := mkChan {
  closed : bool;
  sent : list nat
}.

Module ProviderService.

Record t := mk {
  baseCacheDir : string;
  providerCaches : ProviderCaches;
  providerCacheCh : chan;
  needCacheArchive : bool;
  terraformPluginDir : string
}.

End ProviderService.

(** [ProviderCaches.Find]: the first tracked unit that matches. *)
Fixpoint Find (providers : ProviderCaches) (target : Provider.t)
  : option ProviderCache.t :=
  match providers with
  | [] => None
  | provider :: rest =>
      if Provider.Match (ProviderCache.Provider provider) target
      then Some provider
      else Find rest target
  end.

Section Paths.

Variable service : ProviderService.t.
Variable cache : ProviderCache.t.

Definition providerDir : string :=
  Filepath.Join [ProviderService.baseCacheDir service;
                 Provider.Path (ProviderCache.Provider cache)].

Definition lockFilename : string :=
  Filepath.Join [ProviderService.baseCacheDir service;
                 Provider.Path (ProviderCache.Provider cache);
                 Provider.Platform (ProviderCache.Provider cache)]
  +:+ ".lock".

Definition platformDir : string :=
  Filepath.Join [ProviderService.baseCacheDir service;
                 Provider.Path (ProviderCache.Provider cache);
                 Provider.Platform (ProviderCache.Provider cache)].

Definition terraformPluginPlatformDir : string :=
  Filepath.Join [ProviderService.terraformPluginDir service;
                 Provider.Path (ProviderCache.Provider cache);
                 Provider.Platform (ProviderCache.Provider cache)].

Definition ArchiveFilename : string :=
  match Provider.DownloadURL (ProviderCache.Provider cache) with
  | None => ""
  | Some url =>
      Filepath.Join [ProviderService.baseCacheDir service;
                     Provider.Path (ProviderCache.Provider cache);
                     Filepath.Base (URL.Path url)]
  end.

End Paths.

(** ** Warm-up as a computation over the disk *)

(** The calls warm-up and cleanup make on the outside world, in order. *)
Inductive call :=
  | MkdirAllCall (path : string)
  | AcquireCall (path : string)
  | UnlockCall (path : string)
  | SymlinkCall (oldname newname : string)
  | FetchCall (url dest : string)
  | DecompressCall (dst src : string)
  | RemoveCall (path : string).

Definition is_fetch (c : call) : bool :=
  match c with FetchCall _ _ => true | _ => false end.

Definition is_decompress (c : call) : bool :=
  match c with DecompressCall _ _ => true | _ => false end.

(** Neither a download nor an unpacking. *)
Definition setup_call (c : call) : bool :=
  negb (is_fetch c) && negb (is_decompress c).

(** What a method of a cache unit reads and writes: the disk, the unit's
    own fields, and the log of calls made. *)
Record Machine := mkMachine {
  m_fs : FS;
  m_cache : ProviderCache.t;
  m_calls : list call
}.

Definition M (A : Type) : Type := Machine -> (error + A) * Machine.

#[global] Instance M_ret : MRet M := fun A x m => (inr x, m).

#[global] Instance M_bind : MBind M := fun A B f c m =>
  match c m with
  | (inl e, m') => (inl e, m')
  | (inr x, m') => f x m'
  end.

Definition fail {A} (e : error) : M A := fun m => (inl e, m).

(** A call whose effect on the disk may be partial when it fails. *)
Definition sys (c : call) (op : FS -> option error * FS) : M unit := fun m =>
  let '(r, fs') := op (m_fs m) in
  let m' := mkMachine fs' (m_cache m) (m_calls m ++ [c]) in
  match r with
  | Some e => (inl e, m')
  | None => (inr tt, m')
  end.

(** A call of package [os]: the disk is unchanged when it fails. *)
Definition os (c : call) (op : FS -> error + FS) : M unit :=
  sys c (fun fs => match op fs with
                   | inl e => (Some e, fs)
                   | inr fs' => (None, fs')
                   end).

Definition FileExists (path : string) : M bool := fun m =>
  (inr (Util.FileExists path (m_fs m)), m).

Definition get_needCacheArchive : M bool := fun m =>
  (inr (ProviderCache.needCacheArchive (m_cache m)), m).

Definition put_needCacheArchive (b : bool) : M unit := fun m =>
  (inr tt, mkMachine (m_fs m) (ProviderCache.set_needCacheArchive b (m_cache m))
                     (m_calls m)).

(** [defer cleanup; body]: [cleanup] runs when [body] returns, with or
    without error; its own result is dropped. *)
Definition defer {A} (cleanup : M unit) (body : M A) : M A := fun m =>
  let '(r, m1) := body m in
  (r, snd (cleanup m1)).

Definition Unlock (path : string) : M unit :=
  sys (UnlockCall path) (fun fs => (None, fs)).

Section Methods.

Variable env : Env.
Variable service : ProviderService.t.

Section WarmUp.

(** The receiver, as it is when [warmUp] is entered: the paths are
    computed from it once, before any step. *)
Variable cache : ProviderCache.t.

(** Lines 86-93: the provider directory and the lock file. *)
Definition enter : M unit :=
  os (MkdirAllCall (providerDir service cache))
     (Os.MkdirAll (providerDir service cache)) ;;
  sys (AcquireCall (lockFilename service cache))
      (Lockfile.AcquireLockfile env (lockFilename service cache)
                                maxRetriesLockfile).

(** Lines 96-111: reuse the host's plugin directory through a link,
    create the platform directory, or find it in place; the result is
    [alreadyCached]. *)
Definition linkOrCreate : M bool :=
  platformExists ← FileExists (platformDir service cache);
  if negb platformExists then
    pluginExists ← FileExists (terraformPluginPlatformDir service cache);
    if pluginExists : bool then
      os (SymlinkCall (terraformPluginPlatformDir service cache)
                      (platformDir service cache))
         (Os.Symlink (terraformPluginPlatformDir service cache)
                     (platformDir service cache)) ;;
      mret true
    else
      os (MkdirAllCall (platformDir service cache))
         (Os.MkdirAll (platformDir service cache)) ;;
      put_needCacheArchive true ;;
      mret false
  else mret true.

(** Lines 113-122: fetch the archive when it is needed and missing. *)
Definition fetchArchive : M unit :=
  needCacheArchive ← get_needCacheArchive;
  archiveExists ← FileExists (ArchiveFilename service cache);
  if needCacheArchive && negb archiveExists then
    match Provider.DownloadURL (ProviderCache.Provider cache) with
    | None => fail (DownloadURLUndefined (ProviderCache.Provider cache))
    | Some url =>
        sys (FetchCall (URL.String url) (ArchiveFilename service cache))
            (FetchFile env (URL.String url) (ArchiveFilename service cache))
    end
  else mret tt.

(** Lines 124-129: unpack unless the directory was already there. *)
Definition unpack (alreadyCached : bool) : M unit :=
  if negb alreadyCached then
    sys (DecompressCall (platformDir service cache)
                        (ArchiveFilename service cache))
        (Decompress env (platformDir service cache)
                    (ArchiveFilename service cache))
  else mret tt.

End WarmUp.

(** [ProviderCache.warmUp]. *)
Definition warmUp : M unit := fun m =>
  let cache := m_cache m in
  (enter cache ;;
   defer (Unlock (lockFilename service cache))
     (alreadyCached ← linkOrCreate cache;
      fetchArchive cache ;;
      unpack cache alreadyCached)) m.

(** [ProviderCache.removeArchive]. *)
Definition removeArchive : M unit := fun m =>
  let archiveFilename := ArchiveFilename service (m_cache m) in
  (needCacheArchive ← get_needCacheArchive;
   archiveExists ← FileExists archiveFilename;
   if needCacheArchive && archiveExists then
     os (RemoveCall archiveFilename) (Os.Remove archiveFilename)
   else mret tt) m.

(** The body of the task the worker loop starts for a received unit,
    between taking and releasing the shared claim on the readiness gate:
    warm-up, then either the rollback of the platform directory (the
    result of [os.Remove] is dropped) or the ready mark. *)
Definition cacheTask : M unit := fun m =>
  match warmUp m with
  | (inl err, m1) =>
      let dir := platformDir service (m_cache m1) in
      (inl err, snd (os (RemoveCall dir) (Os.Remove dir) m1))
  | (inr tt, m1) =>
      (inr tt, mkMachine (m_fs m1) (ProviderCache.set_ready true (m_cache m1))
                         (m_calls m1))
  end.

(** The cleanup loop of the worker: every tracked unit in order, errors
    collected, none stopping the loop. *)
Fixpoint removeArchives (caches : ProviderCaches) (fs : FS) (calls : list call)
  : list error * (FS * list call) :=
  match caches with
  | [] => ([], (fs, calls))
  | cache :: rest =>
      let '(r, m) := removeArchive (mkMachine fs cache calls) in
      let '(errs, out) := removeArchives rest (m_fs m) (m_calls m) in
      (match r with inl e => e :: errs | inr _ => errs end, out)
  end.

End Methods.

(** ** The service *)

Definition NewProviderService (baseCacheDir : string) (needCacheArchive : bool)
  : ProviderService.t :=
  ProviderService.mk baseCacheDir [] (mkChan false []) needCacheArchive "".

(** [ProviderService.CacheProvider], as a completed call: the send is
    taken by the worker loop.  A send on the closed channel panics, which
    is [None]; the collection is then as it was. *)
Definition CacheProvider (service : ProviderService.t) (provider : Provider.t)
  : option ProviderService.t :=
  match Find (ProviderService.providerCaches service) provider with
  | Some _ => Some service
  | None =>
      let cache :=
        ProviderCache.mk provider (ProviderService.needCacheArchive service)
                         false in
      let ch := ProviderService.providerCacheCh service in
      if closed ch then None
      else
        Some (ProviderService.mk
                (ProviderService.baseCacheDir service)
                (ProviderService.providerCaches service ++ [cache])
                (mkChan false
                   (sent ch ++ [length (ProviderService.providerCaches service)]))
                (ProviderService.needCacheArchive service)
                (ProviderService.terraformPluginDir service))
  end.

(** A sequence of calls, one after the other. *)
Fixpoint CacheProviders (service : ProviderService.t) (providers : list Provider.t)
  : option ProviderService.t :=
  match providers with
  | [] => Some service
  | provider :: rest =>
      match CacheProvider service provider with
      | Some service' => CacheProviders service' rest
      | None => None
      end
  end.

(** The number of tracked units whose identity matches [target]. *)
Definition count_matching (caches : ProviderCaches) (target : Provider.t) : nat :=
  length (List.filter
            (fun cache => Provider.Match (ProviderCache.Provider cache) target)
            caches).

(** [ProviderService.GetProviderCache]. *)
Definition GetProviderCache (service : ProviderService.t) (provider : Provider.t)
    (fs : FS) : option ProviderCache.t :=
  match Find (ProviderService.providerCaches service) provider with
  | Some cache =>
      if ProviderCache.ready cache
         && Util.FileExists (ArchiveFilename service cache) fs
      then Some cache
      else None
  | None => None
  end.

(** ** The worker loop, its tasks and the readiness gate

    [RunCacheWorker], the tasks it starts and a caller of
    [WaitForCacheReady] run concurrently.  They are interleaved at the
    granularity of the events below; [cacheMu] makes [CacheProvider]
    atomic, and a task's body runs in one event. *)

Inductive TaskState :=
  | Spawned                         (* started by [errGroup.Go], before [RLock] *)
  | Holding                         (* holds the shared claim *)
  | Finished (err : option error).  (* returned, claim released *)

Inductive WorkerState :=
  | NotStarted
  | Running                         (* in the select loop *)
  | Draining                        (* channel closed, in [errGroup.Wait] *)
  | Returned (errs : list error).   (* the aggregated error; empty is nil *)

Inductive WaiterState :=
  | Idle
  | Waiting (tracked : nat)         (* [WaitForCacheReady] called with this many units enqueued *)
  | Locked (tracked : nat)          (* holds the exclusive claim *)
  | Released (tracked : nat).       (* [WaitForCacheReady] returned *)

Record State := mkState {
  s_service : ProviderService.t;
  s_disk : FS;
  s_calls : list call;
  s_tasks : list TaskState;         (* the task of each tracked unit, by position *)
  s_readers : nat;                  (* shared claims on [cacheReadyMu] *)
  s_writer : bool;                  (* exclusive claim on [cacheReadyMu] *)
  s_groupErr : option error;        (* the error the errgroup keeps: the first *)
  s_cancelled : bool;               (* [ctx.Done()] is closed *)
  s_worker : WorkerState;
  s_waiter : WaiterState;
  s_finished : list (nat * option error)  (* tasks in the order they returned *)
}.

Inductive event :=
  | EvRunCacheWorker
  | EvCacheProvider (provider : Provider.t)
  | EvTaskRLock (i : nat)
  | EvTaskRun (i : nat)
  | EvCancel
  | EvCtxDone
  | EvWorkerReturn
  | EvWaitCall
  | EvWaitLock
  | EvWaitUnlock.

Definition is_finished (t : TaskState) : bool :=
  match t with Finished _ => true | _ => false end.

Definition with_pluginDir (dir : string) (service : ProviderService.t)
  : ProviderService.t :=
  ProviderService.mk (ProviderService.baseCacheDir service)
                     (ProviderService.providerCaches service)
                     (ProviderService.providerCacheCh service)
                     (ProviderService.needCacheArchive service) dir.

Definition with_caches (caches : ProviderCaches) (service : ProviderService.t)
  : ProviderService.t :=
  ProviderService.mk (ProviderService.baseCacheDir service) caches
                     (ProviderService.providerCacheCh service)
                     (ProviderService.needCacheArchive service)
                     (ProviderService.terraformPluginDir service).

Definition close_channel (service : ProviderService.t) : ProviderService.t :=
  ProviderService.mk (ProviderService.baseCacheDir service)
                     (ProviderService.providerCaches service)
                     (mkChan true (sent (ProviderService.providerCacheCh service)))
                     (ProviderService.needCacheArchive service)
                     (ProviderService.terraformPluginDir service).

(** What [merr.ErrorOrNil()] holds at the end of [RunCacheWorker]: the
    result of [errGroup.Wait] if it is an error, then the cleanup errors. *)
Definition aggregate (waitErr : option error) (cleanupErrs : list error)
  : list error :=
  match waitErr with
  | Some err => err :: cleanupErrs
  | None => cleanupErrs
  end.

Definition step (env : Env) (ev : event) (s : State) : option State :=
  let 'mkState service disk calls tasks readers writer groupErr cancelled
               worker waiter finished := s in
  match ev with
  | EvRunCacheWorker =>
      match worker with
      | NotStarted =>
          if String.eqb (ProviderService.baseCacheDir service) "" then
            Some (mkState service disk calls tasks readers writer groupErr
                          cancelled (Returned [CacheDirNotSpecified]) waiter finished)
          else
            match config_dir env with
            | inl err =>
                Some (mkState service disk calls tasks readers writer groupErr
                              cancelled (Returned [err]) waiter finished)
            | inr configDir =>
                Some (mkState
                        (with_pluginDir (Filepath.Join [configDir; "plugins"]) service)
                        disk calls tasks readers writer groupErr cancelled
                        Running waiter finished)
            end
      | _ => None
      end
  | EvCacheProvider provider =>
      match Find (ProviderService.providerCaches service) provider with
      | Some _ => Some s
      | None =>
          match worker, CacheProvider service provider with
          | Running, Some service' =>
              Some (mkState service' disk calls (tasks ++ [Spawned]) readers
                            writer groupErr cancelled worker waiter finished)
          | _, _ => None
          end
      end
  | EvTaskRLock i =>
      match tasks !! i with
      | Some Spawned =>
          if writer then None
          else Some (mkState service disk calls (<[i := Holding]> tasks)
                             (S readers) writer groupErr cancelled worker waiter
                             finished)
      | _ => None
      end
  | EvTaskRun i =>
      match tasks !! i, ProviderService.providerCaches service !! i with
      | Some Holding, Some cache =>
          let '(r, m) := cacheTask env service (mkMachine disk cache calls) in
          let err := match r with inl e => Some e | inr _ => None end in
          Some (mkState
                  (with_caches (<[i := m_cache m]> (ProviderService.providerCaches service))
                               service)
                  (m_fs m) (m_calls m) (<[i := Finished err]> tasks)
                  (pred readers) writer
                  (match groupErr with Some e => Some e | None => err end)
                  (cancelled || bool_decide (err <> None))
                  worker waiter (finished ++ [(i, err)]))
      | _, _ => None
      end
  | EvCancel =>
      Some (mkState service disk calls tasks readers writer groupErr true
                    worker waiter finished)
  | EvCtxDone =>
      match worker with
      | Running =>
          if cancelled then
            Some (mkState (close_channel service) disk calls tasks readers writer
                          groupErr cancelled Draining waiter finished)
          else None
      | _ => None
      end
  | EvWorkerReturn =>
      match worker with
      | Draining =>
          if forallb is_finished tasks then
            let '(errs, (disk', calls')) :=
              removeArchives service (ProviderService.providerCaches service)
                             disk calls in
            Some (mkState service disk' calls' tasks readers writer groupErr
                          cancelled (Returned (aggregate groupErr errs)) waiter
                          finished)
          else None
      | _ => None
      end
  | EvWaitCall =>
      match waiter with
      | Idle =>
          Some (mkState service disk calls tasks readers writer groupErr cancelled
                        worker
                        (Waiting (length (sent (ProviderService.providerCacheCh service))))
                        finished)
      | _ => None
      end
  | EvWaitLock =>
      match waiter with
      | Waiting n =>
          if writer || negb (Nat.eqb readers 0) then None
          else Some (mkState service disk calls tasks readers true groupErr
                             cancelled worker (Locked n) finished)
      | _ => None
      end
  | EvWaitUnlock =>
      match waiter with
      | Locked n =>
          Some (mkState service disk calls tasks readers false groupErr cancelled
                        worker (Released n) finished)
      | _ => None
      end
  end.

Fixpoint run (env : Env) (evs : list event) (s : State) : option State :=
  match evs with
  | [] => Some s
  | ev :: rest =>
      match step env ev s with
      | Some s' => run env rest s'
      | None => None
      end
  end.

Definition init (service : ProviderService.t) (disk : FS) : State :=
  mkState service disk [] [] 0 false None false NotStarted Idle [].

(** A unit has reached ready or failed when its task has returned. *)
Definition settled (s : State) (i : nat) : Prop :=
  exists err, s_tasks s !! i = Some (Finished err).
(** The first error in the order the tasks returned. *)
Fixpoint first_failure (finished : list (nat * option error)) : option error :=
  match finished with
  | [] => None
  | (_, Some err) :: _ => Some err
  | (_, None) :: rest => first_failure rest
  end.

Definition is_holding (t : TaskState) : bool :=
  match t with Holding => true | _ => false end.

(** The number of tasks that hold the shared claim. *)
Definition holding (tasks : list TaskState) : nat :=
  length (List.filter is_holding tasks).

(** The errgroup keeps the error of the first task that failed. *)
Definition group_inv (s : State) : Prop :=
  s_groupErr s = first_failure (s_finished s).

(** [cacheReadyMu]: the shared claims are those of the tasks between
    [RLock] and [RUnlock]; the exclusive claim is held by the caller of
    [WaitForCacheReady] alone, and only while no shared claim is out. *)
Definition gate_inv (s : State) : Prop :=
  s_readers s = holding (s_tasks s)
  /\ (s_writer s = true -> s_readers s = 0)
  /\ (forall n, s_waiter s = Locked n -> s_writer s = true).

Definition is_unlock (c : call) : bool :=
  match c with UnlockCall _ => true | _ => false end.

(** Every tracked unit has its task, and a unit is marked ready exactly
    when its task has returned without error. *)
Definition ready_inv (s : State) : Prop :=
  length (s_tasks s) = length (ProviderService.providerCaches (s_service s))
  /\ forall i cache,
      ProviderService.providerCaches (s_service s) !! i = Some cache ->
      (ProviderCache.ready cache = true <->
       s_tasks s !! i = Some (Finished None)).

(** A failed task has cancelled the context of the group. *)
Definition failed_inv (s : State) : Prop :=
  (exists i err, s_tasks s !! i = Some (Finished (Some err))) ->
  s_cancelled s = true.

(** The channel is closed only by the worker on its way out, and the
    exclusive claim on the gate is held only by the caller of
    [WaitForCacheReady]. *)
Definition closing_inv (s : State) : Prop :=
  (closed (ProviderService.providerCacheCh (s_service s)) = true ->
   s_worker s = Draining \/ exists errs, s_worker s = Returned errs)
  /\ (s_writer s = true -> exists n, s_waiter s = Locked n).


(** The service keeps the settings it was made with, and tasks exist only
    once the worker has passed its set-up: the cache directory is not empty
    and the plugin directory is the one derived from the CLI configuration
    directory. *)
Definition setup_inv (env : Env) (baseCacheDir : string)
    (needCacheArchive : bool) (s : State) : Prop :=
  ProviderService.baseCacheDir (s_service s) = baseCacheDir
  /\ ProviderService.needCacheArchive (s_service s) = needCacheArchive
  /\ ((s_tasks s = []
       /\ s_worker s <> Running /\ s_worker s <> Draining
       /\ ProviderService.terraformPluginDir (s_service s) = "")
      \/ (baseCacheDir <> ""
          /\ exists configDir,
              config_dir env = inr configDir
              /\ ProviderService.terraformPluginDir (s_service s)
                 = Filepath.Join [configDir; "plugins"])).

(** The log of returned tasks holds exactly the tasks that have returned,
    each with the result it returned. *)
Definition finished_inv (s : State) : Prop :=
  forall i err,
    In (i, err) (s_finished s) <-> s_tasks s !! i = Some (Finished err).

(** What the cleanup loop reports for a unit whose archive could not be
    removed: the error of [os.Remove] on the unit's archive path. *)
Definition cleanup_failure (service : ProviderService.t)
    (cache : ProviderCache.t) : error :=
  PathError "remove" (ArchiveFilename service cache) ENOTEMPTY.

(** ** Providers, environments and disks of the examples *)

Definition aws_url : URL.t :=
  URL.mk "https" "releases.hashicorp.com"
         "/terraform-provider-aws/5.0.0/terraform-provider-aws_5.0.0_linux_amd64.zip".

Definition aws : Provider.t :=
  Provider.mk "registry.terraform.io" "hashicorp" "aws" "5.0.0" "linux" "amd64"
              (Some aws_url).

(** The same identity before its download URL is resolved. *)
Definition aws_unresolved : Provider.t :=
  Provider.mk "registry.terraform.io" "hashicorp" "aws" "5.0.0" "linux" "amd64"
              None.

Definition random_unresolved : Provider.t :=
  Provider.mk "registry.terraform.io" "hashicorp" "random" "3.6.0" "linux" "amd64"
              None.


(** Every lock is free, every download and every unpacking succeeds. *)
Definition quiet : Env :=
  mkEnv (fun _ _ => true) (fun _ _ => Fetched)
        (fun _ => (["terraform-provider-aws_v5.0.0_x5"], true))
        (inr "/home/user/.terraform.d").

(** Unpacking writes one entry and then fails. *)
Definition broken_archive : Env :=
  mkEnv (fun _ _ => true) (fun _ _ => Fetched)
        (fun _ => (["terraform-provider-aws_v5.0.0_x5"], false))
        (inr "/home/user/.terraform.d").

(** Downloads fail, leaving nothing behind. *)
Definition offline : Env :=
  mkEnv (fun _ _ => true) (fun _ _ => FetchFailed false)
        (fun _ => ([], true))
        (inr "/home/user/.terraform.d").

(** The service as [RunCacheWorker] leaves it after resolving the host's
    plugin directory. *)
Definition started (baseCacheDir : string) (needCacheArchive : bool)
  : ProviderService.t :=
  with_pluginDir "/home/user/.terraform.d/plugins"
                 (NewProviderService baseCacheDir needCacheArchive).

(** A unit as [CacheProvider] creates it. *)
Definition unit_of (provider : Provider.t) (needCacheArchive : bool)
  : ProviderCache.t :=
  ProviderCache.mk provider needCacheArchive false.

Definition aws_platformDir : string :=
  "/cache/registry.terraform.io/hashicorp/aws/5.0.0/linux_amd64".

Definition aws_archive : string :=
  "/cache/registry.terraform.io/hashicorp/aws/5.0.0/terraform-provider-aws_5.0.0_linux_amd64.zip".

Definition aws_hostPluginDir : string :=
  "/home/user/.terraform.d/plugins/registry.terraform.io/hashicorp/aws/5.0.0/linux_amd64".

(** The disk after [mkdir -p path]. *)
Definition mkdirs (path : string) (fs : FS) : FS :=
  match Os.MkdirAll path fs with
  | inr fs' => fs'
  | inl _ => fs
  end.

(** A disk on which an earlier run left the unpacked provider. *)
Definition disk_cached : FS :=
  <[aws_platformDir +:+ "/terraform-provider-aws_v5.0.0_x5" := File]>
    (mkdirs aws_platformDir ∅).

(** A disk on which the host's own plugin directory holds the provider. *)
Definition disk_host : FS :=
  <[aws_hostPluginDir +:+ "/terraform-provider-aws_v5.0.0_x5" := File]>
    (mkdirs aws_hostPluginDir ∅).


(** * Properties *)

(** ** Facts about the lexical path functions *)

Section FilepathFacts.

Import Filepath.

Lemma append_nil_l (b : string) : "" +:+ b = b.
Proof. reflexivity. Qed.

Lemma append_cons (c : ascii) (a b : string) :
  String c a +:+ b = String c (a +:+ b).
Proof. reflexivity. Qed.

Lemma append_assoc (a b c : string) : (a +:+ b) +:+ c = a +:+ (b +:+ c).
Proof.
  induction a as [|x a IH]; rewrite ?append_cons, ?append_nil_l;
    [reflexivity | now rewrite IH].
Qed.

Lemma append_length (a b : string) :
  String.length (a +:+ b) = String.length a + String.length b.
Proof.
  induction a as [|x a IH]; rewrite ?append_cons, ?append_nil_l; simpl;
    [reflexivity | now rewrite IH].
Qed.

Lemma prefix_append (a b : string) : String.prefix a (a +:+ b) = true.
Proof.
  induction a as [|x a IH]; rewrite ?append_cons, ?append_nil_l; simpl.
  - now destruct b.
  - destruct (ascii_dec x x); [exact IH | contradiction].
Qed.

Lemma append_neq (a b : string) : b <> "" -> a <> a +:+ b.
Proof.
  intros Hb Heq. apply (f_equal String.length) in Heq.
  rewrite append_length in Heq. destruct b; [contradiction | simpl in Heq; lia].
Qed.

Lemma append_not_empty (a : string) (c : ascii) (b : string) :
  a +:+ String c b <> "".
Proof. destruct a; rewrite ?append_cons, ?append_nil_l; discriminate. Qed.

Lemma proper_prefix_append (a b : string) : b <> "" -> proper_prefix a (a +:+ b).
Proof. intros Hb. split; [apply prefix_append | now apply append_neq]. Qed.

Lemma split_sep_nonempty (s : string) : split_sep s <> [].
Proof.
  destruct s as [|c s]; simpl; [discriminate|].
  destruct (is_sep c); [discriminate|]. now destruct (split_sep s).
Qed.

Lemma split_sep_app (a b : string) :
  split_sep (a +:+ String Separator b) = split_sep a ++ split_sep b.
Proof.
  induction a as [|c a IH]; rewrite ?append_cons, ?append_nil_l; simpl.
  - reflexivity.
  - rewrite IH. destruct (is_sep c); [reflexivity|].
    pose proof (split_sep_nonempty a) as Hne.
    destruct (split_sep a); [contradiction | reflexivity].
Qed.

Lemma split_sep_no_sep (p : string) : no_sep p = true -> split_sep p = [p].
Proof.
  induction p as [|c p IH]; simpl; [reflexivity|].
  intros H. apply andb_true_iff in H as [Hc Hp].
  apply negb_true_iff in Hc. rewrite Hc, (IH Hp). reflexivity.
Qed.


Lemma no_sep_not_rooted (p : string) : no_sep p = true -> is_rooted p = false.
Proof.
  destruct p as [|c p]; simpl; [reflexivity|].
  intros H. apply andb_true_iff in H as [Hc _]. now apply negb_true_iff in Hc.
Qed.

Lemma join_sep_cons (x y : string) (l : list string) :
  join_sep (x :: y :: l) = x +:+ String Separator (join_sep (y :: l)).
Proof. reflexivity. Qed.

Lemma join_sep_snoc (l : list string) (p : string) :
  l <> [] -> join_sep (l ++ [p]) = join_sep l +:+ String Separator p.
Proof.
  induction l as [|x l IH]; [contradiction|]. intros _.
  destruct l as [|y l].
  - reflexivity.
  - change ((x :: y :: l) ++ [p]) with (x :: (y :: l) ++ [p]).
    change ((y :: l) ++ [p]) with (y :: (l ++ [p])) at 1.
    rewrite join_sep_cons.
    change (y :: (l ++ [p])) with ((y :: l) ++ [p]).
    rewrite IH by discriminate.
    rewrite join_sep_cons, append_assoc. reflexivity.
Qed.

Lemma clean_step_plain (rooted : bool) (stack : list string) (p : string) :
  plain p -> clean_step rooted stack p = p :: stack.
Proof.
  intros (_ & H0 & H1 & H2). unfold clean_step.
  apply String.eqb_neq in H0, H1, H2. now rewrite H0, H1, H2.
Qed.

Lemma is_rooted_app (a b : string) : a <> "" -> is_rooted (a +:+ b) = is_rooted a.
Proof. destruct a; [contradiction | reflexivity]. Qed.

Lemma clean_elems_extend (s p : string) :
  s <> "" -> plain p ->
  clean_elems (s +:+ String Separator p) = clean_elems s ++ [p].
Proof.
  intros Hs Hp. unfold clean_elems.
  rewrite is_rooted_app by assumption.
  rewrite split_sep_app, fold_left_app.
  rewrite (split_sep_no_sep p) by apply Hp. simpl.
  rewrite clean_step_plain by assumption. reflexivity.
Qed.

Lemma Clean_plain (p : string) : plain p -> Clean p = p.
Proof.
  intros Hp. pose proof Hp as (Hns & H0 & _).
  unfold Clean, clean_elems.
  apply String.eqb_neq in H0. rewrite H0.
  rewrite (no_sep_not_rooted p Hns), (split_sep_no_sep p Hns). simpl.
  rewrite clean_step_plain by assumption. simpl. now rewrite H0.
Qed.

Lemma Clean_extend (s p : string) :
  s <> "" -> plain p -> Clean s <> "." ->
  proper_prefix (Clean s) (Clean (s +:+ String Separator p)).
Proof.
  intros Hs Hp Hdot. pose proof Hp as (_ & Hp0 & _).
  unfold Clean in *.
  pose proof (append_not_empty s Separator p) as Hs2.
  apply String.eqb_neq in Hs2. rewrite Hs2.
  rewrite clean_elems_extend by assumption.
  rewrite is_rooted_app by assumption.
  apply String.eqb_neq in Hs. rewrite Hs in Hdot |- *.
  destruct (clean_elems s) as [|x l] eqn:El.
  - simpl in *. destruct (is_rooted s).
    + apply (proper_prefix_append (String Separator "") p Hp0).
    + contradiction.
  - rewrite join_sep_snoc by discriminate.
    destruct (is_rooted s).
    + apply (proper_prefix_append (String Separator (join_sep (x :: l)))
                                  (String Separator p)). discriminate.
    + destruct (String.eqb (join_sep (x :: l)) "") eqn:Eb; [contradiction|].
      pose proof (append_not_empty (join_sep (x :: l)) Separator p) as Hb2.
      apply String.eqb_neq in Hb2. rewrite Hb2.
      apply proper_prefix_append. discriminate.
Qed.

Lemma Join_extend (base path p : string) :
  plain p -> Join [base; path] <> "." ->
  proper_prefix (Join [base; path]) (Join [base; path; p]).
Proof.
  intros Hp Hdot. pose proof Hp as (_ & Hp0 & _).
  unfold Join in *.
  destruct (String.eqb_spec base "") as [Hb|Hb].
  - destruct (String.eqb_spec path "") as [Hq|Hq].
    + apply String.eqb_neq in Hp0. rewrite Hp0.
      change (join_sep [p]) with p. rewrite Clean_plain by assumption.
      apply (proper_prefix_append "" p). now apply String.eqb_neq.
    + change (join_sep [path; p]) with (path +:+ String Separator p).
      change (join_sep [path]) with path in *.
      now apply Clean_extend.
  - change (join_sep [base; path; p])
      with (base +:+ String Separator (path +:+ String Separator p)).
    change (join_sep [base; path]) with (base +:+ String Separator path) in *.
    replace (base +:+ String Separator (path +:+ String Separator p))
      with ((base +:+ String Separator path) +:+ String Separator p)
      by (rewrite append_assoc; reflexivity).
    apply Clean_extend; try assumption. apply append_not_empty.
Qed.


End FilepathFacts.

Example Clean_slashes_and_dots : Filepath.Clean "/a//b/./c/../d/" = "/a/b/d".
Proof. reflexivity. Qed.

Example Clean_leading_dotdot : Filepath.Clean "../../a/../../b" = "../../../b".
Proof. reflexivity. Qed.

Example Clean_root_dotdot : Filepath.Clean "/../a" = "/a".
Proof. reflexivity. Qed.

Example Clean_to_dot : Filepath.Clean "a/.." = ".".
Proof. reflexivity. Qed.

Example Join_skips_empty : Filepath.Join [""; "a"; ""; "b"] = "a/b".
Proof. reflexivity. Qed.

Example Join_all_empty : Filepath.Join [""; ""] = "".
Proof. reflexivity. Qed.

Example Base_of_url_path :
  Filepath.Base (URL.Path aws_url) = "terraform-provider-aws_5.0.0_linux_amd64.zip".
Proof. reflexivity. Qed.

Example Base_of_slashes : Filepath.Base "///" = "/".
Proof. reflexivity. Qed.

(** ** Facts about the file system *)

Example parent_of_provider_dir :
  Os.parent "/cache/registry/hashicorp/aws/5.0.0"
  = Some "/cache/registry/hashicorp/aws".
Proof. reflexivity. Qed.

Example parent_under_root : Os.parent "/cache" = None.
Proof. reflexivity. Qed.

Example MkdirAll_makes_parents :
  Os.MkdirAll "/c/r/n" ∅
  = inr (<["/c/r/n" := Dir]> (<["/c/r" := Dir]> (<["/c" := Dir]> ∅))).
Proof. vm_compute. reflexivity. Qed.

Example Remove_refuses_full_directory :
  Os.Remove "/c" (<["/c/r" := Dir]> (<["/c" := Dir]> ∅))
  = inl (PathError "remove" "/c" ENOTEMPTY).
Proof. vm_compute. reflexivity. Qed.

Lemma drop_while_length {A} (f : A -> bool) (l : list A) :
  length (Os.drop_while f l) <= length l.
Proof.
  induction l as [|x l IH]; simpl; [lia|].
  destruct (f x); simpl; lia.
Qed.

Lemma string_of_list_ascii_length (l : list ascii) :
  String.length (string_of_list_ascii l) = length l.
Proof. induction l as [|c l IH]; simpl; [reflexivity | now rewrite IH]. Qed.

Lemma list_ascii_of_string_length (s : string) :
  length (list_ascii_of_string s) = String.length s.
Proof. induction s as [|c s IH]; simpl; [reflexivity | now rewrite IH]. Qed.

(** The parent is a strictly shorter path. *)
Lemma parent_shorter (path dir : string) :
  Os.parent path = Some dir -> String.length dir < String.length path.
Proof.
  unfold Os.parent.
  pose proof (drop_while_length Filepath.is_sep
                (rev (list_ascii_of_string path))) as H1.
  pose proof (drop_while_length (fun c => negb (Filepath.is_sep c))
                (Os.drop_while Filepath.is_sep (rev (list_ascii_of_string path))))
    as H2.
  destruct (Os.drop_while (fun c => negb (Filepath.is_sep c)) _) as [|c [|c' rest]];
    try discriminate.
  intros [= <-]. rewrite string_of_list_ascii_length.
  change (rev rest ++ [c']) with (rev (c' :: rest)). rewrite length_rev.
  rewrite length_rev, list_ascii_of_string_length in H1. simpl in *. lia.
Qed.

(** The length of the path is fuel enough for [MkdirAll]: more fuel gives
    the same result. *)
Lemma MkdirAll_from_fuel (fuel1 : nat) :
  forall (fuel2 : nat) (path : string) (fs : FS),
    String.length path <= fuel1 -> String.length path <= fuel2 ->
    Os.MkdirAll_from fuel1 path fs = Os.MkdirAll_from fuel2 path fs.
Proof.
  induction fuel1 as [|fuel1 IH]; intros fuel2 path fs H1 H2.
  - destruct path; [|simpl in H1; lia].
    destruct fuel2; reflexivity.
  - destruct fuel2 as [|fuel2].
    + destruct path; [reflexivity | simpl in H2; lia].
    + simpl. destruct (Os.Stat path fs) as [[| |t]|]; try reflexivity.
      destruct (Os.parent path) as [dir|] eqn:Ep; [|reflexivity].
      apply parent_shorter in Ep.
      rewrite (IH fuel2 dir fs) by lia. reflexivity.
Qed.

(** ** Identity matching *)

Lemma Match_fields (p q : Provider.t) :
  Provider.Match p q = true <->
  Provider.RegistryName p = Provider.RegistryName q
  /\ Provider.Namespace p = Provider.Namespace q
  /\ Provider.Name p = Provider.Name q
  /\ Provider.Version p = Provider.Version q
  /\ Provider.OS p = Provider.OS q
  /\ Provider.Arch p = Provider.Arch q.
Proof.
  unfold Provider.Match. rewrite !andb_true_iff, !String.eqb_eq. tauto.
Qed.

Lemma Match_refl (p : Provider.t) : Provider.Match p p = true.
Proof. apply Match_fields. tauto. Qed.

Lemma Match_sym (p q : Provider.t) :
  Provider.Match p q = Provider.Match q p.
Proof.
  apply eq_true_iff_eq. rewrite !Match_fields. intuition congruence.
Qed.

Lemma Match_trans (p q r : Provider.t) :
  Provider.Match p q = true -> Provider.Match q r = true ->
  Provider.Match p r = true.
Proof. rewrite !Match_fields. intuition congruence. Qed.


(** ** C9: derived paths *)





(** ** Lookup in the tracked collection *)

Lemma Find_Some (caches : ProviderCaches) (target : Provider.t)
    (cache : ProviderCache.t) :
  Find caches target = Some cache ->
  In cache caches
  /\ Provider.Match (ProviderCache.Provider cache) target = true.
Proof.
  induction caches as [|c caches IH]; simpl; [discriminate|].
  destruct (Provider.Match (ProviderCache.Provider c) target) eqn:E.
  - intros [= <-]. auto.
  - intros H. destruct (IH H). auto.
Qed.

Lemma Find_None (caches : ProviderCaches) (target : Provider.t) :
  Find caches target = None <-> count_matching caches target = 0.
Proof.
  unfold count_matching.
  induction caches as [|c caches IH]; simpl; [tauto|].
  destruct (Provider.Match (ProviderCache.Provider c) target); simpl.
  - split; discriminate.
  - exact IH.
Qed.

Lemma count_matching_app (l1 l2 : ProviderCaches) (target : Provider.t) :
  count_matching (l1 ++ l2) target
  = count_matching l1 target + count_matching l2 target.
Proof. unfold count_matching. now rewrite List.filter_app, length_app. Qed.

Lemma count_matching_In (caches : ProviderCaches) (target : Provider.t)
    (cache : ProviderCache.t) :
  In cache caches ->
  Provider.Match (ProviderCache.Provider cache) target = true ->
  count_matching caches target <> 0.
Proof.
  intros Hin Hm Hz. apply Find_None in Hz.
  induction caches as [|c caches IH]; simpl in *; [contradiction|].
  destruct Hin as [-> | Hin].
  - now rewrite Hm in Hz.
  - destruct (Provider.Match (ProviderCache.Provider c) target);
      [discriminate | auto].
Qed.

(** ** C2: the deduplicating enqueue *)

(** What one call does to the number of units matching any identity [P]:
    it becomes one when no unit matched and the call is for [P]'s identity,
    and stays as it is otherwise.  The channel stays open. *)
Lemma CacheProvider_count (service : ProviderService.t) (Q : Provider.t) :
  closed (ProviderService.providerCacheCh service) = false ->
  exists service',
    CacheProvider service Q = Some service'
    /\ closed (ProviderService.providerCacheCh service') = false
    /\ forall P,
        count_matching (ProviderService.providerCaches service') P
        = if Nat.eqb (count_matching (ProviderService.providerCaches service) P) 0
             && Provider.Match Q P
          then 1
          else count_matching (ProviderService.providerCaches service) P.
Proof.
  intros Hopen. unfold CacheProvider.
  destruct (Find (ProviderService.providerCaches service) Q) as [c|] eqn:EF.
  - exists service. repeat split; [assumption|]. intros P.
    apply Find_Some in EF as [Hin Hm].
    destruct (Provider.Match Q P) eqn:EQ; [|now rewrite andb_false_r].
    pose proof (count_matching_In _ P c Hin (Match_trans _ _ _ Hm EQ)) as Hne.
    apply Nat.eqb_neq in Hne. now rewrite Hne.
  - rewrite Hopen. eexists. repeat split. simpl. intros P.
    rewrite count_matching_app. unfold count_matching at 2. simpl.
    destruct (Provider.Match Q P) eqn:EQ; simpl.
    + assert (Hz : count_matching (ProviderService.providerCaches service) P = 0).
      { destruct (count_matching (ProviderService.providerCaches service) P)
          as [|n] eqn:En; [reflexivity|]. exfalso.
        apply Find_None in EF. revert En. unfold count_matching in *.
        induction (ProviderService.providerCaches service) as [|c l IH];
          simpl in *; [discriminate|].
        destruct (Provider.Match (ProviderCache.Provider c) Q) eqn:EcQ;
          [discriminate|].
        destruct (Provider.Match (ProviderCache.Provider c) P) eqn:EcP; [|auto].
        rewrite (Match_sym Q P) in EQ.
        rewrite (Match_trans _ _ _ EcP EQ) in EcQ. discriminate. }
      rewrite Hz. reflexivity.
    + rewrite andb_false_r. lia.
Qed.

Lemma CacheProviders_count (providers : list Provider.t) :
  forall service,
    closed (ProviderService.providerCacheCh service) = false ->
    exists service',
      CacheProviders service providers = Some service'
      /\ closed (ProviderService.providerCacheCh service') = false
      /\ forall P,
          count_matching (ProviderService.providerCaches service') P
          = if Nat.eqb (count_matching (ProviderService.providerCaches service) P) 0
               && existsb (fun Q => Provider.Match Q P) providers
            then 1
            else count_matching (ProviderService.providerCaches service) P.
Proof.
  induction providers as [|Q providers IH]; intros service Hopen.
  - exists service. repeat split; [assumption|]. intros P.
    now rewrite andb_false_r.
  - destruct (CacheProvider_count service Q Hopen) as (s1 & E1 & Hopen1 & Hc1).
    destruct (IH s1 Hopen1) as (s2 & E2 & Hopen2 & Hc2).
    exists s2. simpl. rewrite E1. repeat split; [assumption..|]. intros P.
    rewrite Hc2, Hc1.
    destruct (Nat.eqb (count_matching (ProviderService.providerCaches service) P) 0)
      eqn:E0; simpl.
    + destruct (Provider.Match Q P); simpl; [reflexivity|].
      now rewrite E0.
    + now rewrite E0.
Qed.

(** A call for an identity that is tracked changes nothing. *)
Lemma CacheProvider_tracked (service : ProviderService.t) (P : Provider.t) :
  count_matching (ProviderService.providerCaches service) P <> 0 ->
  CacheProvider service P = Some service.
Proof.
  intros Hne. unfold CacheProvider.
  destruct (Find (ProviderService.providerCaches service) P) eqn:EF;
    [reflexivity|].
  now apply Find_None in EF.
Qed.

(** C2.  Starting from a new service, any sequence of [CacheProvider]
    calls completes, and afterwards the collection holds exactly one unit
    matching [P] when one of the calls was for [P]'s identity (and none
    otherwise); a further call for such an identity, whatever its download
    URL, returns the service as it is: the collection and the channel are
    unchanged. *)
Theorem CacheProvider_idempotent (baseCacheDir : string) (needCacheArchive : bool)
    (providers : list Provider.t) :
  exists service,
    CacheProviders (NewProviderService baseCacheDir needCacheArchive) providers
    = Some service
    /\ (forall P,
          count_matching (ProviderService.providerCaches service) P
          = if existsb (fun Q => Provider.Match Q P) providers then 1 else 0)
    /\ (forall P,
          existsb (fun Q => Provider.Match Q P) providers = true ->
          CacheProvider service P = Some service).
Proof.
  destruct (CacheProviders_count providers
              (NewProviderService baseCacheDir needCacheArchive) eq_refl)
    as (service & E & _ & Hc).
  exists service. split; [exact E|].
  assert (Hcount : forall P,
            count_matching (ProviderService.providerCaches service) P
            = if existsb (fun Q => Provider.Match Q P) providers then 1 else 0).
  { intros P. rewrite Hc. simpl.
    now destruct (existsb (fun Q => Provider.Match Q P) providers). }
  split; [exact Hcount|].
  intros P HP. apply CacheProvider_tracked. rewrite Hcount, HP. discriminate.
Qed.

Example CacheProvider_twice :
  option_map ProviderService.providerCaches
    (CacheProviders (NewProviderService "/cache" false) [aws_unresolved; aws])
  = Some [ProviderCache.mk aws_unresolved false false].
Proof. reflexivity. Qed.

(** ** C1 and C10: the readiness lookup *)

(** C1, as the code has it.  [GetProviderCache] returns a unit exactly when
    the first tracked unit matching the provider is marked ready and its
    archive file exists on disk; whether retention is enabled for the unit
    plays no part. *)
Theorem GetProviderCache_spec (service : ProviderService.t)
    (provider : Provider.t) (fs : FS) (cache : ProviderCache.t) :
  GetProviderCache service provider fs = Some cache <->
  Find (ProviderService.providerCaches service) provider = Some cache
  /\ ProviderCache.ready cache = true
  /\ Util.FileExists (ArchiveFilename service cache) fs = true.
Proof.
  unfold GetProviderCache.
  destruct (Find (ProviderService.providerCaches service) provider) as [c|].
  - destruct (ProviderCache.ready c) eqn:Er; simpl.
    + destruct (Util.FileExists (ArchiveFilename service c) fs) eqn:Ee.
      * split; [intros [= <-]; auto | intros ([= <-] & _); reflexivity].
      * split; [discriminate | intros ([= <-] & _ & H); congruence].
    + split; [discriminate | intros ([= <-] & H & _); congruence].
  - split; [discriminate | intros (H & _); discriminate].
Qed.

(** C1 as stated fails.  With retention disabled and the platform directory
    left by an earlier run, the unit becomes ready without any archive on
    disk; the claim then promises a cache, the lookup returns none. *)
Lemma GetProviderCache_counterexample :
  exists s,
    run quiet [EvRunCacheWorker; EvCacheProvider aws; EvTaskRLock 0; EvTaskRun 0]
        (init (NewProviderService "/cache" false) disk_cached) = Some s
    /\ ~ (is_Some (GetProviderCache (s_service s) aws (s_disk s)) <->
          exists cache,
            Find (ProviderService.providerCaches (s_service s)) aws = Some cache
            /\ ProviderCache.ready cache = true
            /\ (ProviderCache.needCacheArchive cache = true ->
                Util.FileExists (ArchiveFilename (s_service s) cache) (s_disk s)
                = true)).
Proof.
  assert (Hrun : from_option (fun _ => true) false
                   (run quiet [EvRunCacheWorker; EvCacheProvider aws;
                               EvTaskRLock 0; EvTaskRun 0]
                        (init (NewProviderService "/cache" false) disk_cached))
                 = true)
    by (vm_compute; reflexivity).
  assert (Hget : from_option
                   (fun s => GetProviderCache (s_service s) aws (s_disk s)) None
                   (run quiet [EvRunCacheWorker; EvCacheProvider aws;
                               EvTaskRLock 0; EvTaskRun 0]
                        (init (NewProviderService "/cache" false) disk_cached))
                 = None)
    by (vm_compute; reflexivity).
  assert (Hfind : from_option
                    (fun s => Find (ProviderService.providerCaches (s_service s)) aws)
                    None
                    (run quiet [EvRunCacheWorker; EvCacheProvider aws;
                                EvTaskRLock 0; EvTaskRun 0]
                         (init (NewProviderService "/cache" false) disk_cached))
                  = Some (ProviderCache.mk aws false true))
    by (vm_compute; reflexivity).
  destruct (run quiet _ _) as [s|]; [|discriminate Hrun].
  unfold from_option in Hget, Hfind.
  exists s. split; [reflexivity|]. intros [_ H].
  destruct H as [c Hc].
  - exists (ProviderCache.mk aws false true).
    split; [exact Hfind|]. split; [reflexivity|]. intros Hneed. discriminate Hneed.
  - rewrite Hget in Hc. discriminate Hc.
Qed.

Lemma FileExists_empty_path (fs : FS) : Util.FileExists "" fs = false.
Proof. reflexivity. Qed.

(** C10.  A unit whose provider has no download URL has the empty archive
    file name, the empty path never exists, and so the lookup of a provider
    whose tracked unit has no download URL returns none, ready or not. *)
Theorem GetProviderCache_unresolved (service : ProviderService.t)
    (provider : Provider.t) (fs : FS) (cache : ProviderCache.t)
    (Hfind : Find (ProviderService.providerCaches service) provider = Some cache)
    (Hurl : Provider.DownloadURL (ProviderCache.Provider cache) = None) :
  ArchiveFilename service cache = ""
  /\ Util.FileExists (ArchiveFilename service cache) fs = false
  /\ GetProviderCache service provider fs = None.
Proof.
  assert (Ha : ArchiveFilename service cache = "").
  { unfold ArchiveFilename. now rewrite Hurl. }
  split; [exact Ha|]. split; [now rewrite Ha|].
  unfold GetProviderCache. rewrite Hfind, Ha, FileExists_empty_path.
  now rewrite andb_false_r.
Qed.

Lemma GetProviderCache_unresolved_witness :
  GetProviderCache
    (with_caches [ProviderCache.mk aws_unresolved true true] (started "/cache" true))
    aws (<[aws_archive := File]> disk_cached)
  = None.
Proof.
  apply (GetProviderCache_unresolved
           (with_caches [ProviderCache.mk aws_unresolved true true]
                        (started "/cache" true))
           aws (<[aws_archive := File]> disk_cached)
           (ProviderCache.mk aws_unresolved true true)).
  - reflexivity.
  - reflexivity.
Defined.

(** ** Warm-up, step by step *)

Lemma sys_run (c : call) (op : FS -> option error * FS) (m : Machine) :
  sys c op m
  = (match fst (op (m_fs m)) with Some e => inl e | None => inr tt end,
     mkMachine (snd (op (m_fs m))) (m_cache m) (m_calls m ++ [c])).
Proof. unfold sys. destruct (op (m_fs m)) as [[e|] fs']; reflexivity. Qed.

Lemma os_run (c : call) (op : FS -> error + FS) (m : Machine) :
  os c op m
  = match op (m_fs m) with
    | inl e => (inl e, mkMachine (m_fs m) (m_cache m) (m_calls m ++ [c]))
    | inr fs' => (inr tt, mkMachine fs' (m_cache m) (m_calls m ++ [c]))
    end.
Proof. unfold os. rewrite sys_run. destruct (op (m_fs m)); reflexivity. Qed.

Lemma bind_run {A B} (c : M A) (f : A -> M B) (m : Machine) :
  (c ≫= f) m
  = match c m with
    | (inl e, m') => (inl e, m')
    | (inr x, m') => f x m'
    end.
Proof. reflexivity. Qed.

Lemma forallb_weaken {A} (f g : A -> bool) (l : list A) :
  (forall x, f x = true -> g x = true) ->
  forallb f l = true -> forallb g l = true.
Proof.
  intros Hfg. induction l as [|x l IH]; simpl; [reflexivity|].
  intros H. apply andb_true_iff in H as [Hx Hl].
  now rewrite (Hfg x Hx), (IH Hl).
Qed.

Section WarmUpFacts.

Variable env : Env.
Variable service : ProviderService.t.

(** Lines 86-93 leave the unit as it is and only create the provider
    directory and take the lock. *)
Lemma enter_inv (cache : ProviderCache.t) (m m2 : Machine) (r : error + unit) :
  enter env service cache m = (r, m2) ->
  m_cache m2 = m_cache m
  /\ exists new, m_calls m2 = m_calls m ++ new /\ forallb setup_call new = true.
Proof.
  unfold enter. rewrite bind_run, os_run.
  destruct (Os.MkdirAll _ _) as [e|fs1].
  - intros [= <- <-]. split; [reflexivity|]. eexists. split; reflexivity.
  - rewrite sys_run. intros [= <- <-]. split; [reflexivity|].
    exists [MkdirAllCall (providerDir service cache);
            AcquireCall (lockFilename service cache)].
    simpl. rewrite <- app_assoc. split; reflexivity.
Qed.

(** Lines 96-111 may set the unit's archive flag, never clear it, and leave
    its provider and ready mark alone. *)
Lemma linkOrCreate_inv (cache : ProviderCache.t) (m m3 : Machine)
    (r : error + bool) :
  linkOrCreate service cache m = (r, m3) ->
  ProviderCache.Provider (m_cache m3) = ProviderCache.Provider (m_cache m)
  /\ ProviderCache.ready (m_cache m3) = ProviderCache.ready (m_cache m)
  /\ (ProviderCache.needCacheArchive (m_cache m) = true ->
      ProviderCache.needCacheArchive (m_cache m3) = true)
  /\ (r = inr false -> ProviderCache.needCacheArchive (m_cache m3) = true)
  /\ exists new, m_calls m3 = m_calls m ++ new /\ forallb setup_call new = true.
Proof.
  unfold linkOrCreate. rewrite bind_run. unfold FileExists at 1.
  destruct (Util.FileExists (platformDir service cache) (m_fs m)); simpl.
  - intros [= <- <-]. repeat split; try tauto; try discriminate.
    exists []. now rewrite app_nil_r.
  - rewrite bind_run. unfold FileExists at 1.
    destruct (Util.FileExists (terraformPluginPlatformDir service cache) (m_fs m)).
    + rewrite bind_run, os_run. destruct (Os.Symlink _ _ _) as [e|fs1].
      * intros [= <- <-]. simpl. repeat split; try tauto; try discriminate.
        eexists. split; reflexivity.
      * intros [= <- <-]. simpl. repeat split; try tauto; try discriminate.
        eexists. split; reflexivity.
    + rewrite bind_run, os_run. destruct (Os.MkdirAll _ _) as [e|fs1].
      * intros [= <- <-]. simpl. repeat split; try tauto; try discriminate.
        eexists. split; reflexivity.
      * intros [= <- <-]. simpl. repeat split; try tauto.
        eexists. split; reflexivity.
Qed.

Lemma linkOrCreate_run (cache : ProviderCache.t) (m : Machine) :
  linkOrCreate service cache m
  = if Util.FileExists (platformDir service cache) (m_fs m) then (inr true, m)
    else if Util.FileExists (terraformPluginPlatformDir service cache) (m_fs m)
    then
      match Os.Symlink (terraformPluginPlatformDir service cache)
                       (platformDir service cache) (m_fs m) with
      | inl e =>
          (inl e,
           mkMachine (m_fs m) (m_cache m)
             (m_calls m ++ [SymlinkCall (terraformPluginPlatformDir service cache)
                                        (platformDir service cache)]))
      | inr fs' =>
          (inr true,
           mkMachine fs' (m_cache m)
             (m_calls m ++ [SymlinkCall (terraformPluginPlatformDir service cache)
                                        (platformDir service cache)]))
      end
    else
      match Os.MkdirAll (platformDir service cache) (m_fs m) with
      | inl e =>
          (inl e,
           mkMachine (m_fs m) (m_cache m)
             (m_calls m ++ [MkdirAllCall (platformDir service cache)]))
      | inr fs' =>
          (inr false,
           mkMachine fs' (ProviderCache.set_needCacheArchive true (m_cache m))
             (m_calls m ++ [MkdirAllCall (platformDir service cache)]))
      end.
Proof.
  unfold linkOrCreate. rewrite bind_run. unfold FileExists at 1.
  destruct (Util.FileExists (platformDir service cache) (m_fs m));
    [reflexivity|]. simpl.
  rewrite bind_run. unfold FileExists at 1.
  destruct (Util.FileExists (terraformPluginPlatformDir service cache) (m_fs m)).
  - rewrite bind_run, os_run. now destruct (Os.Symlink _ _ _).
  - rewrite bind_run, os_run. now destruct (Os.MkdirAll _ _).
Qed.

Lemma fetchArchive_run (cache : ProviderCache.t) (m : Machine) :
  fetchArchive env service cache m
  = if ProviderCache.needCacheArchive (m_cache m)
       && negb (Util.FileExists (ArchiveFilename service cache) (m_fs m))
    then
      match Provider.DownloadURL (ProviderCache.Provider cache) with
      | None => (inl (DownloadURLUndefined (ProviderCache.Provider cache)), m)
      | Some url =>
          sys (FetchCall (URL.String url) (ArchiveFilename service cache))
              (FetchFile env (URL.String url) (ArchiveFilename service cache)) m
      end
    else (inr tt, m).
Proof.
  unfold fetchArchive, get_needCacheArchive, FileExists, mbind, M_bind.
  destruct (ProviderCache.needCacheArchive (m_cache m));
    destruct (Util.FileExists (ArchiveFilename service cache) (m_fs m));
    try reflexivity.
  now destruct (Provider.DownloadURL _).
Qed.

Lemma unpack_run (cache : ProviderCache.t) (alreadyCached : bool) (m : Machine) :
  unpack env service cache alreadyCached m
  = if alreadyCached then (inr tt, m)
    else sys (DecompressCall (platformDir service cache)
                             (ArchiveFilename service cache))
             (Decompress env (platformDir service cache)
                         (ArchiveFilename service cache)) m.
Proof. now destruct alreadyCached. Qed.

(** Warm-up after [enter] has gone through. *)
Lemma warmUp_entered (m m2 : Machine) :
  enter env service (m_cache m) m = (inr tt, m2) ->
  warmUp env service m
  = let '(r, m5) :=
      match linkOrCreate service (m_cache m) m2 with
      | (inl e, m3) => (inl e, m3)
      | (inr alreadyCached, m3) =>
          match fetchArchive env service (m_cache m) m3 with
          | (inl e, m4) => (inl e, m4)
          | (inr _, m4) => unpack env service (m_cache m) alreadyCached m4
          end
      end in
    (r, mkMachine (m_fs m5) (m_cache m5)
                  (m_calls m5 ++ [UnlockCall (lockFilename service (m_cache m))])).
Proof.
  intros Henter. unfold warmUp. rewrite bind_run, Henter. unfold defer.
  rewrite !bind_run.
  destruct (linkOrCreate service (m_cache m) m2) as [[e|a] m3]; [reflexivity|].
  rewrite bind_run.
  destruct (fetchArchive env service (m_cache m) m3) as [[e|[]] m4];
    [reflexivity|].
  now destruct (unpack env service (m_cache m) a m4).
Qed.

(** Warm-up after its first three steps have gone through: what is left is
    the fetch, the unpacking and the release of the lock. *)
Lemma warmUp_steps (m m3 : Machine) (alreadyCached : bool) :
  (enter env service (m_cache m) ≫= fun _ => linkOrCreate service (m_cache m)) m
  = (inr alreadyCached, m3) ->
  warmUp env service m
  = let '(r, m4) :=
      (fetchArchive env service (m_cache m) ≫=
         fun _ => unpack env service (m_cache m) alreadyCached) m3 in
    (r, snd (Unlock (lockFilename service (m_cache m)) m4)).
Proof.
  unfold warmUp. rewrite !bind_run.
  destruct (enter env service (m_cache m) m) as [[e|[]] m2]; [discriminate|].
  unfold defer. rewrite !bind_run.
  destruct (linkOrCreate service (m_cache m) m2) as [[e|a] m3'];
    [discriminate|].
  intros [= <- <-]. reflexivity.
Qed.

End WarmUpFacts.

(** ** C7: the unresolved download URL *)

(** A task that has returned stays as it is: no event runs it again. *)
Lemma step_finished (env : Env) (ev : event) (s s' : State) (i : nat)
    (err : option error) :
  step env ev s = Some s' ->
  s_tasks s !! i = Some (Finished err) ->
  s_tasks s' !! i = Some (Finished err).
Proof.
  destruct s as [service disk calls tasks readers writer groupErr cancelled
                 worker waiter finished].
  intros Hstep Hi. simpl in Hi.
  destruct ev; simpl in Hstep.
  - destruct worker; try discriminate.
    destruct (String.eqb _ _); [now inversion Hstep|].
    destruct (config_dir env); now inversion Hstep.
  - destruct (Find _ _); [now inversion Hstep|].
    destruct worker; try discriminate.
    destruct (CacheProvider service provider); [|discriminate].
    inversion Hstep; subst; simpl.
    now apply lookup_app_l_Some.
  - destruct (tasks !! i0) as [[| |e]|] eqn:Ei0; try discriminate.
    destruct writer; [discriminate|]. inversion Hstep; subst; simpl.
    rewrite list_lookup_insert_ne; [assumption|]. intros ->. congruence.
  - destruct (tasks !! i0) as [[| |e]|] eqn:Ei0; try discriminate.
    destruct (ProviderService.providerCaches service !! i0); [|discriminate].
    destruct (cacheTask env service _) as [r m].
    inversion Hstep; subst; simpl.
    rewrite list_lookup_insert_ne; [assumption|]. intros ->. congruence.
  - now inversion Hstep.
  - destruct worker; try discriminate. destruct cancelled; [|discriminate].
    now inversion Hstep.
  - destruct worker; try discriminate.
    destruct (forallb is_finished tasks); [|discriminate].
    destruct (removeArchives _ _ _ _) as [errs [disk' calls']].
    now inversion Hstep.
  - destruct waiter; try discriminate. now inversion Hstep.
  - destruct waiter; try discriminate.
    destruct (writer || negb (Nat.eqb readers 0)); [discriminate|].
    now inversion Hstep.
  - destruct waiter; try discriminate. now inversion Hstep.
Qed.

Lemma run_finished (env : Env) (evs : list event) :
  forall (s s' : State) (i : nat) (err : option error),
    run env evs s = Some s' ->
    s_tasks s !! i = Some (Finished err) ->
    s_tasks s' !! i = Some (Finished err).
Proof.
  induction evs as [|ev evs IH]; simpl; intros s s' i err Hrun Hi.
  - now inversion Hrun; subst.
  - destruct (step env ev s) as [s1|] eqn:E1; [|discriminate].
    eapply IH; [exact Hrun|]. eapply step_finished; eassumption.
Qed.

(** C7.  When warm-up has passed its first three steps (provider directory,
    lock, platform directory) with the archive required and the provider's
    download URL unset, the task fails with the error that carries the
    provider; among the calls it makes there is no download (the only calls
    after the third step are the release of the lock and the rollback), the
    unit is not marked ready, and a task that has returned with this error
    is never run again, whatever happens afterwards. *)
Theorem undefined_url_fails_fast (env : Env) (service : ProviderService.t)
    (m m3 : Machine) (alreadyCached : bool)
    (Hurl : Provider.DownloadURL (ProviderCache.Provider (m_cache m)) = None)
    (Hsteps : (enter env service (m_cache m) ≫=
                 fun _ => linkOrCreate service (m_cache m)) m
              = (inr alreadyCached, m3))
    (Hneed : ProviderCache.needCacheArchive (m_cache m3) = true) :
  (exists m' new,
      cacheTask env service m
      = (inl (DownloadURLUndefined (ProviderCache.Provider (m_cache m))), m')
      /\ m_calls m' = m_calls m ++ new
      /\ forallb (fun c => negb (is_fetch c)) new = true
      /\ m_calls m'
         = m_calls m3 ++ [UnlockCall (lockFilename service (m_cache m));
                          RemoveCall (platformDir service (m_cache m))]
      /\ ProviderCache.ready (m_cache m') = ProviderCache.ready (m_cache m))
  /\ (forall (s s' : State) (i : nat) (evs : list event),
         s_tasks s !! i
         = Some (Finished (Some (DownloadURLUndefined
                                   (ProviderCache.Provider (m_cache m))))) ->
         run env evs s = Some s' ->
         s_tasks s' !! i
         = Some (Finished (Some (DownloadURLUndefined
                                   (ProviderCache.Provider (m_cache m)))))).
Proof.
  split; [|intros s s' i evs Hi Hrun; eapply run_finished; eassumption].
  pose proof (warmUp_steps env service m m3 alreadyCached Hsteps) as Hw.
  rewrite bind_run in Hsteps.
  destruct (enter env service (m_cache m) m) as [[e|[]] m2] eqn:Eenter;
    [discriminate|].
  destruct (enter_inv env service _ _ _ _ Eenter) as (Hc2 & new2 & Hcalls2 & Hq2).
  destruct (linkOrCreate_inv service _ _ _ _ Hsteps)
    as (Hp3 & Hr3 & _ & _ & new3 & Hcalls3 & Hq3).
  assert (Hfetch : fetchArchive env service (m_cache m) m3
                   = (inl (DownloadURLUndefined (ProviderCache.Provider (m_cache m))),
                      m3)).
  { unfold fetchArchive. rewrite !bind_run.
    unfold get_needCacheArchive, FileExists. rewrite Hneed.
    unfold ArchiveFilename. rewrite Hurl. reflexivity. }
  rewrite bind_run, Hfetch in Hw.
  unfold cacheTask. rewrite Hw. simpl. rewrite os_run.
  assert (Hdir : platformDir service (m_cache m3) = platformDir service (m_cache m)).
  { unfold platformDir. now rewrite Hp3, Hc2. }
  rewrite Hdir.
  set (new := new2 ++ new3 ++ [UnlockCall (lockFilename service (m_cache m));
                               RemoveCall (platformDir service (m_cache m))]).
  assert (Hnew : forallb (fun c => negb (is_fetch c)) new = true).
  { unfold new. rewrite !forallb_app. simpl. rewrite !andb_true_r.
    apply andb_true_iff. split.
    - eapply forallb_weaken; [|exact Hq2]. intros c Hc.
      unfold setup_call in Hc. now apply andb_true_iff in Hc as [Hc _].
    - eapply forallb_weaken; [|exact Hq3]. intros c Hc.
      unfold setup_call in Hc. now apply andb_true_iff in Hc as [Hc _]. }
  destruct (Os.Remove _ _) as [e|fs']; eexists; exists new;
    (split; [reflexivity|]); simpl; rewrite Hcalls3, Hcalls2; unfold new;
    rewrite <- !app_assoc; repeat split; try assumption; now rewrite Hr3, Hc2.
Qed.

Lemma undefined_url_fails_fast_witness :
  fst (cacheTask quiet (started "/cache" false)
                 (mkMachine ∅ (unit_of aws_unresolved false) []))
  = inl (DownloadURLUndefined aws_unresolved).
Proof.
  assert (Hres : fst ((enter quiet (started "/cache" false)
                             (unit_of aws_unresolved false) ≫=
                         fun _ => linkOrCreate (started "/cache" false)
                                               (unit_of aws_unresolved false))
                        (mkMachine ∅ (unit_of aws_unresolved false) []))
                 = inr false)
    by (vm_compute; reflexivity).
  assert (Hneed : ProviderCache.needCacheArchive
                    (m_cache
                       (snd ((enter quiet (started "/cache" false)
                                    (unit_of aws_unresolved false) ≫=
                                fun _ => linkOrCreate (started "/cache" false)
                                                      (unit_of aws_unresolved false))
                               (mkMachine ∅ (unit_of aws_unresolved false) []))))
                  = true)
    by (vm_compute; reflexivity).
  destruct ((enter quiet (started "/cache" false) (unit_of aws_unresolved false) ≫=
               fun _ => linkOrCreate (started "/cache" false)
                                     (unit_of aws_unresolved false))
              (mkMachine ∅ (unit_of aws_unresolved false) []))
    as [r m3] eqn:Hsteps.
  simpl in Hres, Hneed. subst r.
  destruct (undefined_url_fails_fast quiet (started "/cache" false)
              (mkMachine ∅ (unit_of aws_unresolved false) []) m3 false
              eq_refl Hsteps Hneed)
    as [(m' & new & H & _) _].
  rewrite H. reflexivity.
Defined.

(** ** C3: reuse of the host's plugin directory *)

(** C3, as the code has it.  When warm-up, holding the lock, finds the
    platform directory missing and the host's plugin directory present, it
    calls [os.Symlink] to make the platform directory a link to it and never
    unpacks.  It does not download when the unit's archive flag is off;
    if the link is created, then with the flag off warm-up succeeds and the
    disk differs only by the link, and with the flag on, the archive
    missing and the download URL set, it downloads the archive. *)
Theorem symlink_reuse (env : Env) (service : ProviderService.t)
    (m m2 : Machine)
    (Henter : enter env service (m_cache m) m = (inr tt, m2))
    (Hplat : Util.FileExists (platformDir service (m_cache m)) (m_fs m2) = false)
    (Hhost : Util.FileExists (terraformPluginPlatformDir service (m_cache m))
                             (m_fs m2) = true) :
  exists r m' new,
    warmUp env service m = (r, m')
    /\ m_calls m'
       = m_calls m2
         ++ SymlinkCall (terraformPluginPlatformDir service (m_cache m))
                        (platformDir service (m_cache m)) :: new
    /\ forallb (fun c => negb (is_decompress c)) new = true
    /\ (ProviderCache.needCacheArchive (m_cache m) = false ->
        forallb (fun c => negb (is_fetch c)) new = true)
    /\ (forall fs3,
          Os.Symlink (terraformPluginPlatformDir service (m_cache m))
                     (platformDir service (m_cache m)) (m_fs m2) = inr fs3 ->
          fs3 = <[platformDir service (m_cache m) :=
                    Symlink (terraformPluginPlatformDir service (m_cache m))]>
                  (m_fs m2)
          /\ (ProviderCache.needCacheArchive (m_cache m) = false ->
              r = inr tt /\ m_fs m' = fs3)
          /\ (ProviderCache.needCacheArchive (m_cache m) = true ->
              Util.FileExists (ArchiveFilename service (m_cache m)) fs3 = false ->
              forall url,
                Provider.DownloadURL (ProviderCache.Provider (m_cache m)) = Some url ->
                In (FetchCall (URL.String url) (ArchiveFilename service (m_cache m)))
                   new)).
Proof.
  destruct (enter_inv env service _ _ _ _ Henter) as (Hc2 & _).
  rewrite (warmUp_entered env service m m2 Henter).
  rewrite linkOrCreate_run, Hplat, Hhost.
  destruct (Os.Symlink _ _ (m_fs m2)) as [e|fs3] eqn:Esym.
  - (* the link cannot be created *)
    do 2 eexists. exists [UnlockCall (lockFilename service (m_cache m))].
    simpl. rewrite <- app_assoc.
    split; [reflexivity|]. split; [reflexivity|]. split; [reflexivity|].
    split; [reflexivity|]. intros fs3 Hfs3. discriminate.
  - assert (Hfs3 : fs3 = <[platformDir service (m_cache m) :=
                             Symlink (terraformPluginPlatformDir service (m_cache m))]>
                           (m_fs m2)).
    { unfold Os.Symlink in Esym.
      destruct (Os.Lstat _ _); [discriminate|].
      destruct (String.eqb _ _); [discriminate|]. now inversion Esym. }
    rewrite fetchArchive_run. simpl. rewrite Hc2.
    destruct (ProviderCache.needCacheArchive (m_cache m)) eqn:Eneed; simpl.
    + destruct (Util.FileExists (ArchiveFilename service (m_cache m)) fs3) eqn:Earch;
        simpl.
      * do 2 eexists. exists [UnlockCall (lockFilename service (m_cache m))].
        simpl. rewrite <- app_assoc.
        split; [reflexivity|]. split; [reflexivity|]. split; [reflexivity|].
        split; [reflexivity|]. intros fs3' [= <-].
        split; [exact Hfs3|]. split; [discriminate|]. intros _ Ha. congruence.
      * destruct (Provider.DownloadURL (ProviderCache.Provider (m_cache m)))
          as [url|] eqn:Eurl.
        -- rewrite sys_run. simpl.
           destruct (fst (FetchFile env (URL.String url)
                                    (ArchiveFilename service (m_cache m)) fs3));
             simpl;
             do 2 eexists;
             exists [FetchCall (URL.String url) (ArchiveFilename service (m_cache m));
                     UnlockCall (lockFilename service (m_cache m))];
             simpl; rewrite <- !app_assoc;
             (split; [reflexivity|]); (split; [reflexivity|]);
             (split; [reflexivity|]); (split; [discriminate|]);
             intros fs3' [= <-];
             (split; [exact Hfs3|]); (split; [discriminate|]);
             intros _ _ url' [= <-]; now left.
        -- do 2 eexists.
           exists [UnlockCall (lockFilename service (m_cache m))].
           simpl. rewrite <- !app_assoc.
           split; [reflexivity|]. split; [reflexivity|]. split; [reflexivity|].
           split; [reflexivity|]. intros fs3' [= <-].
           split; [exact Hfs3|]. split; [discriminate|]. discriminate.
    + do 2 eexists. exists [UnlockCall (lockFilename service (m_cache m))].
      simpl. rewrite <- app_assoc.
      split; [reflexivity|]. split; [reflexivity|]. split; [reflexivity|].
      split; [reflexivity|]. intros fs3' [= <-].
      split; [exact Hfs3|]. split; [intros _; split; reflexivity | discriminate].
Qed.

Lemma symlink_reuse_witness :
  fst (warmUp quiet (started "/cache" false)
              (mkMachine disk_host (unit_of aws false) []))
  = inr tt.
Proof.
  assert (Hres : fst (enter quiet (started "/cache" false) (unit_of aws false)
                            (mkMachine disk_host (unit_of aws false) []))
                 = inr tt)
    by (vm_compute; reflexivity).
  assert (Hplat : Util.FileExists
                    (platformDir (started "/cache" false) (unit_of aws false))
                    (m_fs (snd (enter quiet (started "/cache" false)
                                      (unit_of aws false)
                                      (mkMachine disk_host (unit_of aws false) []))))
                  = false)
    by (vm_compute; reflexivity).
  assert (Hhost : Util.FileExists
                    (terraformPluginPlatformDir (started "/cache" false)
                                                (unit_of aws false))
                    (m_fs (snd (enter quiet (started "/cache" false)
                                      (unit_of aws false)
                                      (mkMachine disk_host (unit_of aws false) []))))
                  = true)
    by (vm_compute; reflexivity).
  assert (Hlinked : match Os.Symlink
                            (terraformPluginPlatformDir (started "/cache" false)
                                                        (unit_of aws false))
                            (platformDir (started "/cache" false) (unit_of aws false))
                            (m_fs (snd (enter quiet (started "/cache" false)
                                              (unit_of aws false)
                                              (mkMachine disk_host
                                                         (unit_of aws false) []))))
                    with
                    | inr _ => true
                    | inl _ => false
                    end = true)
    by (vm_compute; reflexivity).
  destruct (enter quiet (started "/cache" false) (unit_of aws false)
                  (mkMachine disk_host (unit_of aws false) []))
    as [r2 m2] eqn:Henter.
  simpl in Hres, Hplat, Hhost, Hlinked. subst r2.
  destruct (symlink_reuse quiet (started "/cache" false)
              (mkMachine disk_host (unit_of aws false) []) m2
              Henter Hplat Hhost)
    as (r & m' & new & Hw & _ & _ & _ & Hlink).
  destruct (Os.Symlink _ _ (m_fs m2)) as [e|fs3] eqn:Esym;
    [discriminate Hlinked|].
  destruct (Hlink fs3 eq_refl) as (_ & Hoff & _).
  destruct (Hoff eq_refl) as [Hr _].
  rewrite Hw. exact Hr.
Defined.

(** C3 as stated fails.  On a service with archive retention enabled, the
    platform directory is missing and the host's plugin directory is there,
    and warm-up links the two and still downloads the archive. *)
Lemma symlink_reuse_counterexample :
  Util.FileExists (platformDir (started "/cache" true) (unit_of aws true))
                  disk_host = false
  /\ Util.FileExists
       (terraformPluginPlatformDir (started "/cache" true) (unit_of aws true))
       disk_host = true
  /\ m_calls (snd (warmUp quiet (started "/cache" true)
                          (mkMachine disk_host (unit_of aws true) [])))
     = [MkdirAllCall "/cache/registry.terraform.io/hashicorp/aws/5.0.0";
        AcquireCall (aws_platformDir +:+ ".lock");
        SymlinkCall aws_hostPluginDir aws_platformDir;
        FetchCall (URL.String aws_url) aws_archive;
        UnlockCall (aws_platformDir +:+ ".lock")].
Proof. vm_compute. repeat split. Qed.

(** ** C5: the rollback after a failed warm-up *)

(** C5, at an input where the code misses it.  The archive is fetched, its
    first entry is unpacked and unpacking then fails: the task returns the
    error and calls [os.Remove] on the platform directory, which cannot
    remove a directory that is not empty.  The platform directory survives
    with the partial content, and the next warm-up of the same provider over
    this disk takes it for a cached provider: it neither downloads nor
    unpacks, and the unit is marked ready. *)
Theorem rollback_leaves_partial_unpack :
  exists m',
    cacheTask broken_archive (started "/cache" false)
              (mkMachine ∅ (unit_of aws false) [])
    = (inl (UnzipError aws_archive), m')
    /\ platformDir (started "/cache" false) (unit_of aws false) = aws_platformDir
    /\ In (RemoveCall aws_platformDir) (m_calls m')
    /\ Os.Remove aws_platformDir (m_fs m')
       = inl (PathError "remove" aws_platformDir ENOTEMPTY)
    /\ Util.FileExists aws_platformDir (m_fs m') = true
    /\ ProviderCache.ready (m_cache m') = false
    /\ exists m'',
        cacheTask quiet (started "/cache" false)
                  (mkMachine (m_fs m') (unit_of aws false) [])
        = (inr tt, m'')
        /\ forallb setup_call (m_calls m'') = true
        /\ ProviderCache.ready (m_cache m'') = true.
Proof.
  assert (Hres : fst (cacheTask broken_archive (started "/cache" false)
                                (mkMachine ∅ (unit_of aws false) []))
                 = inl (UnzipError aws_archive))
    by (vm_compute; reflexivity).
  assert (Hcalls : existsb (fun c => match c with
                                     | RemoveCall path => String.eqb path aws_platformDir
                                     | _ => false
                                     end)
                     (m_calls (snd (cacheTask broken_archive (started "/cache" false)
                                              (mkMachine ∅ (unit_of aws false) []))))
                   = true)
    by (vm_compute; reflexivity).
  assert (Hremove : Os.Remove aws_platformDir
                      (m_fs (snd (cacheTask broken_archive (started "/cache" false)
                                            (mkMachine ∅ (unit_of aws false) []))))
                    = inl (PathError "remove" aws_platformDir ENOTEMPTY))
    by (vm_compute; reflexivity).
  assert (Hexists : Util.FileExists aws_platformDir
                      (m_fs (snd (cacheTask broken_archive (started "/cache" false)
                                            (mkMachine ∅ (unit_of aws false) []))))
                    = true)
    by (vm_compute; reflexivity).
  assert (Hready : ProviderCache.ready
                     (m_cache (snd (cacheTask broken_archive (started "/cache" false)
                                              (mkMachine ∅ (unit_of aws false) []))))
                   = false)
    by (vm_compute; reflexivity).
  assert (Hnext : let next :=
                    cacheTask quiet (started "/cache" false)
                      (mkMachine
                         (m_fs (snd (cacheTask broken_archive (started "/cache" false)
                                               (mkMachine ∅ (unit_of aws false) []))))
                         (unit_of aws false) []) in
                  (fst next, forallb setup_call (m_calls (snd next)),
                   ProviderCache.ready (m_cache (snd next)))
                  = (inr tt, true, true))
    by (vm_compute; reflexivity).
  destruct (cacheTask broken_archive (started "/cache" false)
                      (mkMachine ∅ (unit_of aws false) [])) as [r m'].
  simpl in Hres, Hcalls, Hremove, Hexists, Hready, Hnext. subst r.
  exists m'. split; [reflexivity|]. split; [reflexivity|].
  split.
  { apply existsb_exists in Hcalls as (c & Hin & Hc).
    destruct c; try discriminate Hc.
    apply String.eqb_eq in Hc. now subst path. }
  split; [exact Hremove|]. split; [exact Hexists|]. split; [exact Hready|].
  destruct (cacheTask quiet (started "/cache" false)
                      (mkMachine (m_fs m') (unit_of aws false) []))
    as [r'' m''].
  simpl in Hnext. injection Hnext as Hr Hs Hd. subst r''.
  exists m''. split; [reflexivity|]. split; assumption.
Qed.

(** When the download fails instead, the platform directory that warm-up
    had just created is empty and the rollback removes it. *)
Example rollback_after_failed_fetch :
  exists m',
    cacheTask offline (started "/cache" false)
              (mkMachine ∅ (unit_of aws false) [])
    = (inl (FetchError (URL.String aws_url) aws_archive), m')
    /\ Util.FileExists aws_platformDir (m_fs m') = false.
Proof.
  assert (Hres : fst (cacheTask offline (started "/cache" false)
                                (mkMachine ∅ (unit_of aws false) []))
                 = inl (FetchError (URL.String aws_url) aws_archive))
    by (vm_compute; reflexivity).
  assert (Hgone : Util.FileExists aws_platformDir
                    (m_fs (snd (cacheTask offline (started "/cache" false)
                                          (mkMachine ∅ (unit_of aws false) []))))
                  = false)
    by (vm_compute; reflexivity).
  destruct (cacheTask offline (started "/cache" false)
                      (mkMachine ∅ (unit_of aws false) [])) as [r m'].
  simpl in Hres, Hgone. subst r.
  exists m'. split; [reflexivity | exact Hgone].
Qed.

(** ** C6: archive cleanup *)

Lemma FileExists_Lstat (path : string) (fs : FS) :
  Util.FileExists path fs = true -> Os.Lstat path fs <> None.
Proof.
  unfold Util.FileExists, Os.Stat. simpl.
  destruct (Os.Lstat path fs); [discriminate | intros; discriminate].
Qed.

Section FlagFacts.

Variable env : Env.
Variable service : ProviderService.t.


End FlagFacts.



(** ** C4: shutdown of the worker loop *)

Lemma first_failure_snoc (finished : list (nat * option error)) (i : nat)
    (err : option error) :
  first_failure (finished ++ [(i, err)])
  = match first_failure finished with
    | Some e => Some e
    | None => err
    end.
Proof.
  induction finished as [|[j [e|]] finished IH]; simpl.
  - now destruct err.
  - reflexivity.
  - exact IH.
Qed.

Lemma step_group_inv (env : Env) (ev : event) (s s' : State) :
  step env ev s = Some s' -> group_inv s -> group_inv s'.
Proof.
  destruct s as [service disk calls tasks readers writer groupErr cancelled
                 worker waiter finished].
  unfold group_inv. simpl. intros Hstep Hinv.
  destruct ev; simpl in Hstep.
  - destruct worker; try discriminate.
    destruct (String.eqb _ _); [now inversion Hstep|].
    destruct (config_dir env); now inversion Hstep.
  - destruct (Find _ _); [now inversion Hstep|].
    destruct worker; try discriminate.
    destruct (CacheProvider service provider); [|discriminate].
    now inversion Hstep.
  - destruct (tasks !! i) as [[| |e]|]; try discriminate.
    destruct writer; [discriminate|]. now inversion Hstep.
  - destruct (tasks !! i) as [[| |e]|]; try discriminate.
    destruct (ProviderService.providerCaches service !! i); [|discriminate].
    destruct (cacheTask env service _) as [r m].
    inversion Hstep; subst; simpl.
    rewrite first_failure_snoc.
    now destruct (first_failure finished).
  - now inversion Hstep.
  - destruct worker; try discriminate. destruct cancelled; [|discriminate].
    now inversion Hstep.
  - destruct worker; try discriminate.
    destruct (forallb is_finished tasks); [|discriminate].
    destruct (removeArchives _ _ _ _) as [errs [disk' calls']].
    now inversion Hstep.
  - destruct waiter; try discriminate. now inversion Hstep.
  - destruct waiter; try discriminate.
    destruct (writer || negb (Nat.eqb readers 0)); [discriminate|].
    now inversion Hstep.
  - destruct waiter; try discriminate. now inversion Hstep.
Qed.

Lemma run_group_inv (env : Env) (evs : list event) :
  forall s s', run env evs s = Some s' -> group_inv s -> group_inv s'.
Proof.
  induction evs as [|ev evs IH]; simpl; intros s s' Hrun Hinv.
  - now inversion Hrun; subst.
  - destruct (step env ev s) as [s1|] eqn:E1; [|discriminate].
    eapply IH; [exact Hrun|]. eapply step_group_inv; eassumption.
Qed.

(** ** C8: the readiness gate *)

Lemma holding_app (l1 l2 : list TaskState) :
  holding (l1 ++ l2) = holding l1 + holding l2.
Proof. unfold holding. now rewrite List.filter_app, length_app. Qed.

Lemma holding_take (tasks : list TaskState) :
  forall i t,
    tasks !! i = Some t -> is_holding t = false ->
    holding (<[i := Holding]> tasks) = S (holding tasks).
Proof.
  unfold holding.
  induction tasks as [|x tasks IH]; intros [|i] t Hi Ht; simpl in *;
    try discriminate.
  - inversion Hi; subst. now rewrite Ht.
  - destruct (is_holding x); simpl; now rewrite (IH i t Hi Ht).
Qed.

Lemma holding_zero (tasks : list TaskState) (i : nat) :
  holding tasks = 0 -> tasks !! i <> Some Holding.
Proof.
  unfold holding. revert i.
  induction tasks as [|x tasks IH]; intros [|i] Hz Hi; simpl in *;
    try discriminate.
  - inversion Hi; subst. simpl in Hz. discriminate.
  - destruct (is_holding x); [discriminate | exact (IH i Hz Hi)].
Qed.

Lemma holding_release (tasks : list TaskState) :
  forall i err,
    tasks !! i = Some Holding ->
    holding (<[i := Finished err]> tasks) = pred (holding tasks).
Proof.
  induction tasks as [|x tasks IH]; intros [|i] err Hi; simpl in *;
    try discriminate.
  - now inversion Hi; subst.
  - pose proof (holding_zero tasks i) as Hpos.
    specialize (IH i err Hi). unfold holding in *. simpl.
    destruct (is_holding x); simpl; rewrite IH; [|reflexivity].
    destruct (length (List.filter is_holding tasks)); [|reflexivity].
    now destruct (Hpos eq_refl).
Qed.

Lemma step_gate_inv (env : Env) (ev : event) (s s' : State) :
  step env ev s = Some s' -> gate_inv s -> gate_inv s'.
Proof.
  destruct s as [service disk calls tasks readers writer groupErr cancelled
                 worker waiter finished].
  unfold gate_inv. simpl. intros Hstep (Hr & Hw & Hl).
  destruct ev; simpl in Hstep.
  - destruct worker; try discriminate.
    destruct (String.eqb _ _); [now inversion Hstep|].
    destruct (config_dir env); now inversion Hstep.
  - destruct (Find _ _); [now inversion Hstep|].
    destruct worker; try discriminate.
    destruct (CacheProvider service provider); [|discriminate].
    inversion Hstep; subst; simpl. rewrite holding_app.
    unfold holding at 2. simpl. rewrite Nat.add_0_r. auto.
  - destruct (tasks !! i) as [[| |e]|] eqn:Ei; try discriminate.
    destruct writer; [discriminate|]. inversion Hstep; subst; simpl.
    rewrite (holding_take tasks i Spawned Ei eq_refl).
    split; [congruence|]. split; [discriminate | assumption].
  - destruct (tasks !! i) as [[| |e]|] eqn:Ei; try discriminate.
    destruct (ProviderService.providerCaches service !! i); [|discriminate].
    destruct (cacheTask env service _) as [r m].
    inversion Hstep; subst; simpl.
    rewrite (holding_release tasks i _ Ei).
    split; [congruence|]. split; [|assumption].
    intros Hwr. now rewrite (Hw Hwr).
  - now inversion Hstep.
  - destruct worker; try discriminate. destruct cancelled; [|discriminate].
    now inversion Hstep.
  - destruct worker; try discriminate.
    destruct (forallb is_finished tasks); [|discriminate].
    destruct (removeArchives _ _ _ _) as [errs [disk' calls']].
    now inversion Hstep.
  - destruct waiter; try discriminate. inversion Hstep; subst; simpl.
    split; [reflexivity|]. split; [assumption | discriminate].
  - destruct waiter; try discriminate.
    destruct writer; [discriminate|]. simpl in Hstep.
    destruct (Nat.eqb readers 0) eqn:E0; [|discriminate].
    apply Nat.eqb_eq in E0. inversion Hstep; subst; simpl.
    split; [assumption|]. split; [intros _; congruence | reflexivity].
  - destruct waiter; try discriminate. inversion Hstep; subst; simpl.
    split; [reflexivity|]. split; discriminate.
Qed.

Lemma run_gate_inv (env : Env) (evs : list event) :
  forall s s', run env evs s = Some s' -> gate_inv s -> gate_inv s'.
Proof.
  induction evs as [|ev evs IH]; simpl; intros s s' Hrun Hinv.
  - now inversion Hrun; subst.
  - destruct (step env ev s) as [s1|] eqn:E1; [|discriminate].
    eapply IH; [exact Hrun|]. eapply step_gate_inv; eassumption.
Qed.

(** What the gate does give: while [WaitForCacheReady] holds the exclusive
    claim, no task is between [RLock] and [RUnlock]. *)
Lemma gate_exclusive (env : Env) (service0 : ProviderService.t) (disk0 : FS)
    (evs : list event) (s : State) (n i : nat) :
  run env evs (init service0 disk0) = Some s ->
  s_waiter s = Locked n ->
  s_tasks s !! i <> Some Holding.
Proof.
  intros Hrun Hlocked.
  assert (Hinv : gate_inv s).
  { eapply run_gate_inv; [exact Hrun|].
    split; [reflexivity|]. split; [discriminate|]. intros k Hk. discriminate. }
  destruct Hinv as (Hr & Hw & Hl).
  apply holding_zero. rewrite <- Hr. apply Hw. eapply Hl. exact Hlocked.
Qed.

(** C8, at a schedule where the code misses it.  The unit is enqueued and
    its task started, [WaitForCacheReady] is called, takes the exclusive
    claim and returns, all before the task reaches its [RLock]: one unit was
    enqueued before the call, and when the call returns the unit is neither
    ready nor failed; its warm-up has not begun and the lookup finds no
    cache. *)
Theorem wait_returns_before_warm_up :
  exists s,
    run quiet [EvRunCacheWorker; EvCacheProvider aws;
               EvWaitCall; EvWaitLock; EvWaitUnlock]
        (init (NewProviderService "/cache" false) ∅) = Some s
    /\ s_waiter s = Released 1
    /\ ProviderService.providerCaches (s_service s) = [unit_of aws false]
    /\ s_tasks s = [Spawned]
    /\ ~ settled s 0
    /\ s_calls s = []
    /\ GetProviderCache (s_service s) aws (s_disk s) = None.
Proof.
  eexists. split; [vm_compute; reflexivity|].
  split; [reflexivity|]. split; [reflexivity|]. split; [reflexivity|].
  split; [intros [err Herr]; discriminate|].
  split; reflexivity.
Qed.

(** * Further properties of the cache service *)

(** ** The tracked collection *)

Lemma Find_app (l1 l2 : ProviderCaches) (target : Provider.t) :
  Find (l1 ++ l2) target
  = match Find l1 target with
    | Some cache => Some cache
    | None => Find l2 target
    end.
Proof.
  induction l1 as [|c l1 IH]; simpl; [reflexivity|].
  now destruct (Provider.Match (ProviderCache.Provider c) target).
Qed.

Lemma Find_None_Forall (caches : ProviderCaches) (target : Provider.t) :
  Find caches target = None <->
  Forall (fun cache =>
            Provider.Match (ProviderCache.Provider cache) target = false) caches.
Proof.
  induction caches as [|c caches IH]; simpl.
  - split; [constructor | reflexivity].
  - destruct (Provider.Match (ProviderCache.Provider c) target) eqn:E.
    + split; [discriminate|]. intros H. inversion H; subst. congruence.
    + rewrite IH. split; [now constructor | intros H; now inversion H].
Qed.

(** X1.  [Find] returns the first tracked unit that matches the target:
    the units before it do not match; it returns none exactly when no
    tracked unit matches. *)
Theorem Find_first_match (caches : ProviderCaches) (target : Provider.t) :
  (forall cache,
      Find caches target = Some cache <->
      exists before after,
        caches = before ++ cache :: after
        /\ Provider.Match (ProviderCache.Provider cache) target = true
        /\ Forall (fun earlier =>
                     Provider.Match (ProviderCache.Provider earlier) target = false)
                  before)
  /\ (Find caches target = None <->
      Forall (fun cache =>
                Provider.Match (ProviderCache.Provider cache) target = false)
             caches).
Proof.
  split; [|apply Find_None_Forall].
  intros cache. split.
  - induction caches as [|c caches IH]; simpl; [discriminate|].
    destruct (Provider.Match (ProviderCache.Provider c) target) eqn:E.
    + intros [= <-]. exists [], caches. repeat split; [assumption | constructor].
    + intros H. destruct (IH H) as (before & after & -> & Hm & Hb).
      exists (c :: before), after. repeat split; [assumption|].
      now constructor.
  - intros (before & after & -> & Hm & Hb).
    rewrite Find_app. apply Find_None_Forall in Hb. rewrite Hb.
    simpl. now rewrite Hm.
Qed.

(** X2.  First caller wins: when no tracked unit matches [P] and the
    channel is open, [CacheProvider P] tracks a unit that holds [P] itself,
    with the service's retention setting and not ready, after the units
    already tracked, and hands its position to the worker; a later call for
    any provider [Q] of the same identity changes nothing and leaves the
    lookup on the unit that holds [P], so the download URL of [Q] is never
    used. *)
Theorem CacheProvider_first_caller_wins (service : ProviderService.t)
    (P : Provider.t)
    (Hopen : closed (ProviderService.providerCacheCh service) = false)
    (Hnew : Find (ProviderService.providerCaches service) P = None) :
  exists service',
    CacheProvider service P = Some service'
    /\ ProviderService.providerCaches service'
       = ProviderService.providerCaches service
         ++ [ProviderCache.mk P (ProviderService.needCacheArchive service) false]
    /\ sent (ProviderService.providerCacheCh service')
       = sent (ProviderService.providerCacheCh service)
         ++ [length (ProviderService.providerCaches service)]
    /\ forall Q,
        Provider.Match P Q = true ->
        CacheProvider service' Q = Some service'
        /\ Find (ProviderService.providerCaches service') Q
           = Some (ProviderCache.mk P (ProviderService.needCacheArchive service)
                                    false).
Proof.
  unfold CacheProvider at 1. rewrite Hnew, Hopen.
  eexists. split; [reflexivity|]. simpl.
  split; [reflexivity|]. split; [reflexivity|].
  intros Q HPQ.
  assert (HfindQ : Find (ProviderService.providerCaches service
                         ++ [ProviderCache.mk P
                               (ProviderService.needCacheArchive service) false]) Q
                   = Some (ProviderCache.mk P
                             (ProviderService.needCacheArchive service) false)).
  { rewrite Find_app.
    assert (HQ : Find (ProviderService.providerCaches service) Q = None).
    { apply Find_None_Forall. apply Find_None_Forall in Hnew.
      eapply Forall_impl; [exact Hnew|]. intros c Hc. simpl in Hc.
      destruct (Provider.Match (ProviderCache.Provider c) Q) eqn:EcQ;
        [|reflexivity].
      rewrite (Match_sym P Q) in HPQ.
      rewrite (Match_trans _ _ _ EcQ HPQ) in Hc. discriminate. }
    rewrite HQ. simpl. now rewrite HPQ. }
  split; [|exact HfindQ].
  unfold CacheProvider. simpl. now rewrite HfindQ.
Qed.

Lemma CacheProvider_first_caller_wins_witness :
  exists service',
    CacheProvider (NewProviderService "/cache" true) aws_unresolved = Some service'
    /\ CacheProvider service' aws = Some service'
    /\ Find (ProviderService.providerCaches service') aws
       = Some (ProviderCache.mk aws_unresolved true false).
Proof.
  destruct (CacheProvider_first_caller_wins (NewProviderService "/cache" true)
              aws_unresolved eq_refl eq_refl)
    as (service' & Hfirst & _ & _ & Hlater).
  exists service'. split; [exact Hfirst|]. exact (Hlater aws eq_refl).
Defined.

(** X3.  Once the dispatch channel is closed, [CacheProvider] still returns
    for an identity that is tracked, and panics on any other: no unit is
    added. *)
Theorem CacheProvider_after_close (service : ProviderService.t) (P : Provider.t)
    (Hclosed : closed (ProviderService.providerCacheCh service) = true) :
  CacheProvider service P
  = if Nat.eqb (count_matching (ProviderService.providerCaches service) P) 0
    then None
    else Some service.
Proof.
  unfold CacheProvider.
  destruct (Find (ProviderService.providerCaches service) P) as [c|] eqn:EF.
  - apply Find_Some in EF as [Hin Hm].
    pose proof (count_matching_In _ _ _ Hin Hm) as Hne.
    apply Nat.eqb_neq in Hne. now rewrite Hne.
  - rewrite Hclosed. apply Find_None in EF. now rewrite EF.
Qed.

Lemma CacheProvider_after_close_witness :
  CacheProvider (close_channel (NewProviderService "/cache" false)) aws = None.
Proof.
  rewrite (CacheProvider_after_close
             (close_channel (NewProviderService "/cache" false)) aws eq_refl).
  reflexivity.
Defined.

(** X4.  A provider whose identity was never passed to [CacheProvider] has
    no cache: after any sequence of calls on a new service, the lookup of a
    provider that matches none of them returns none, whatever is on disk. *)
Theorem GetProviderCache_untracked (baseCacheDir : string)
    (needCacheArchive : bool) (providers : list Provider.t)
    (service : ProviderService.t) (P : Provider.t) (fs : FS)
    (Hcalls : CacheProviders (NewProviderService baseCacheDir needCacheArchive)
                             providers = Some service)
    (Hnever : existsb (fun Q => Provider.Match Q P) providers = false) :
  GetProviderCache service P fs = None.
Proof.
  destruct (CacheProviders_count providers
              (NewProviderService baseCacheDir needCacheArchive) eq_refl)
    as (service' & E & _ & Hc).
  rewrite Hcalls in E. injection E as <-.
  specialize (Hc P). rewrite Hnever, andb_false_r in Hc. simpl in Hc.
  apply Find_None in Hc. unfold GetProviderCache. now rewrite Hc.
Qed.

Lemma GetProviderCache_untracked_witness :
  from_option
    (fun service =>
       GetProviderCache service random_unresolved (<[aws_archive := File]> ∅))
    None
    (CacheProviders (NewProviderService "/cache" false) [aws])
  = None.
Proof.
  destruct (CacheProviders (NewProviderService "/cache" false) [aws])
    as [service|] eqn:E; [|reflexivity].
  simpl.
  apply (GetProviderCache_untracked "/cache" false [aws] service
           random_unresolved (<[aws_archive := File]> ∅) E).
  reflexivity.
Defined.

(** ** Warm-up and the task around it *)

Section WarmUpShape.

Variable env : Env.
Variable service : ProviderService.t.

(** Warm-up changes neither the provider nor the ready mark of its unit,
    and never clears the archive flag. *)
Lemma warmUp_cache (m : Machine) :
  ProviderCache.Provider (m_cache (snd (warmUp env service m)))
  = ProviderCache.Provider (m_cache m)
  /\ ProviderCache.ready (m_cache (snd (warmUp env service m)))
     = ProviderCache.ready (m_cache m)
  /\ (ProviderCache.needCacheArchive (m_cache m) = true ->
      ProviderCache.needCacheArchive (m_cache (snd (warmUp env service m))) = true).
Proof.
  destruct (enter env service (m_cache m) m) as [[e|[]] m2] eqn:Eenter.
  - unfold warmUp. rewrite bind_run, Eenter. simpl.
    destruct (enter_inv env service _ _ _ _ Eenter) as (-> & _). auto.
  - rewrite (warmUp_entered env service m m2 Eenter).
    destruct (enter_inv env service _ _ _ _ Eenter) as (Hc2 & _).
    destruct (linkOrCreate service (m_cache m) m2) as [[e|a] m3] eqn:El;
      destruct (linkOrCreate_inv service _ _ _ _ El) as (Hp & Hr & Hn & _);
      rewrite Hc2 in Hp, Hr, Hn.
    + simpl. auto.
    + rewrite fetchArchive_run.
      destruct (_ && _).
      * destruct (Provider.DownloadURL _) as [url|]; [|simpl; auto].
        rewrite sys_run. destruct (fst (FetchFile _ _ _ _)); [simpl; auto|].
        rewrite unpack_run. destruct a; [simpl; auto|].
        rewrite sys_run. simpl. auto.
      * rewrite unpack_run. destruct a; [simpl; auto|].
        rewrite sys_run. simpl. auto.
Qed.

(** The calls of warm-up, by the step at which it returns: before the lock
    is held only the provider directory is made; under the lock come, in
    this order, the link or the creation of the platform directory, the
    download, and the unpacking, each of them optional, the unpacking only
    after the creation. *)
Lemma warmUp_calls (m : Machine) :
  let cache := m_cache m in
  let mkdir := MkdirAllCall (providerDir service cache) in
  let acquire := AcquireCall (lockFilename service cache) in
  let unlock := UnlockCall (lockFilename service cache) in
  let link := SymlinkCall (terraformPluginPlatformDir service cache)
                          (platformDir service cache) in
  let create := MkdirAllCall (platformDir service cache) in
  let unzip := DecompressCall (platformDir service cache)
                              (ArchiveFilename service cache) in
  match enter env service cache m with
  | (inl e, m2) =>
      fst (warmUp env service m) = inl e
      /\ (m_calls (snd (warmUp env service m)) = m_calls m ++ [mkdir]
          \/ m_calls (snd (warmUp env service m)) = m_calls m ++ [mkdir; acquire])
  | (inr _, m2) =>
      exists s3 s4 s5,
        m_calls (snd (warmUp env service m))
        = m_calls m ++ [mkdir; acquire] ++ s3 ++ s4 ++ s5 ++ [unlock]
        /\ (s3 = [] \/ s3 = [link] \/ s3 = [create])
        /\ (s4 = []
            \/ exists url,
                Provider.DownloadURL (ProviderCache.Provider cache) = Some url
                /\ s4 = [FetchCall (URL.String url)
                                   (ArchiveFilename service cache)])
        /\ (s5 = [] \/ (s5 = [unzip] /\ s3 = [create]))
  end.
Proof.
  intros cache mkdir acquire unlock link create unzip.
  destruct (enter env service cache m) as [[e|[]] m2] eqn:Eenter.
  - unfold warmUp. fold cache. rewrite bind_run, Eenter.
    split; [reflexivity|].
    unfold enter in Eenter. rewrite bind_run, os_run in Eenter.
    destruct (Os.MkdirAll _ _).
    + inversion Eenter; subst. now left.
    + rewrite sys_run in Eenter. inversion Eenter; subst.
      right. cbn [snd m_calls]. now rewrite <- app_assoc.
  - rewrite (warmUp_entered env service m m2 Eenter). fold cache.
    assert (Hcalls2 : m_calls m2 = m_calls m ++ [mkdir; acquire]).
    { unfold enter in Eenter. rewrite bind_run, os_run in Eenter.
      destruct (Os.MkdirAll _ _); [discriminate|].
      rewrite sys_run in Eenter. inversion Eenter; subst.
      cbn [m_calls]. now rewrite <- app_assoc. }
    assert (Hfetch : forall m3 : Machine,
               exists s4,
                 m_calls (snd (fetchArchive env service cache m3))
                 = m_calls m3 ++ s4
                 /\ (s4 = []
                     \/ exists url,
                         Provider.DownloadURL (ProviderCache.Provider cache) = Some url
                         /\ s4 = [FetchCall (URL.String url)
                                            (ArchiveFilename service cache)])).
    { intros m3. rewrite fetchArchive_run.
      destruct (_ && _).
      - destruct (Provider.DownloadURL _) as [url|] eqn:Eurl.
        + rewrite sys_run. eexists. split; [reflexivity|]. right. eauto.
        + exists []. rewrite app_nil_r. auto.
      - exists []. rewrite app_nil_r. auto. }
    assert (Hlast : forall (a : bool) (m3 : Machine) (s3 : list call),
               m_calls m3 = m_calls m2 ++ s3 ->
               (a = false -> s3 = [create]) ->
               (s3 = [] \/ s3 = [link] \/ s3 = [create]) ->
               exists s3' s4 s5,
                 m_calls
                   (snd (let '(r, m5) :=
                           match fetchArchive env service cache m3 with
                           | (inl e, m4) => (inl e, m4)
                           | (inr _, m4) => unpack env service cache a m4
                           end in
                         (r, mkMachine (m_fs m5) (m_cache m5)
                                       (m_calls m5 ++ [unlock]))))
                 = m_calls m ++ [mkdir; acquire] ++ s3' ++ s4 ++ s5 ++ [unlock]
                 /\ (s3' = [] \/ s3' = [link] \/ s3' = [create])
                 /\ (s4 = []
                     \/ exists url,
                         Provider.DownloadURL (ProviderCache.Provider cache) = Some url
                         /\ s4 = [FetchCall (URL.String url)
                                            (ArchiveFilename service cache)])
                 /\ (s5 = [] \/ (s5 = [unzip] /\ s3' = [create]))).
    { intros a m3 s3 Hc3 Ha Hs3.
      destruct (Hfetch m3) as (s4 & Hc4 & Hs4).
      destruct (fetchArchive env service cache m3) as [[e|[]] m4].
      - exists s3, s4, []. cbn [snd m_calls] in *.
        rewrite Hc4, Hc3, Hcalls2, <- !app_assoc. auto 10.
      - rewrite unpack_run. destruct a.
        + exists s3, s4, []. cbn [snd m_calls] in *.
          rewrite Hc4, Hc3, Hcalls2, <- !app_assoc. auto 10.
        + rewrite sys_run. exists s3, s4, [unzip]. cbn [snd m_calls] in *.
          rewrite Hc4, Hc3, Hcalls2, <- !app_assoc. auto 10. }
    rewrite linkOrCreate_run.
    destruct (Util.FileExists (platformDir service cache) (m_fs m2)).
    + apply (Hlast true m2 []); [now rewrite app_nil_r | discriminate | auto].
    + destruct (Util.FileExists (terraformPluginPlatformDir service cache) (m_fs m2)).
      * destruct (Os.Symlink _ _ _).
        -- exists [link], [], []. cbn [snd m_calls].
           rewrite Hcalls2, <- !app_assoc. auto 10.
        -- apply (Hlast true _ [link]); [reflexivity | discriminate | auto].
      * destruct (Os.MkdirAll _ _).
        -- exists [create], [], []. cbn [snd m_calls].
           rewrite Hcalls2, <- !app_assoc. auto 10.
        -- apply (Hlast false _ [create]); [reflexivity | auto | auto].
Qed.

End WarmUpShape.

(** X5.  The calls of one warm-up come in a fixed order.  If the provider
    directory cannot be made or the lock cannot be taken, warm-up returns
    that error and has made no other call.  Otherwise, between taking and
    releasing the lock, it makes at most one call of each of three kinds, in
    this order: the link or the creation of the platform directory, the
    download (with the unit's own URL and archive path), the unpacking; and
    it unpacks only into a platform directory it has just created. *)
Theorem warmUp_call_sequence (env : Env) (service : ProviderService.t)
    (m m' : Machine) (r : error + unit)
    (Hrun : warmUp env service m = (r, m')) :
  let cache := m_cache m in
  let mkdir := MkdirAllCall (providerDir service cache) in
  let acquire := AcquireCall (lockFilename service cache) in
  let unlock := UnlockCall (lockFilename service cache) in
  let link := SymlinkCall (terraformPluginPlatformDir service cache)
                          (platformDir service cache) in
  let create := MkdirAllCall (platformDir service cache) in
  let unzip := DecompressCall (platformDir service cache)
                              (ArchiveFilename service cache) in
  (exists e,
      r = inl e
      /\ fst (enter env service cache m) = inl e
      /\ (m_calls m' = m_calls m ++ [mkdir]
          \/ m_calls m' = m_calls m ++ [mkdir; acquire]))
  \/ (fst (enter env service cache m) = inr tt
      /\ exists s3 s4 s5,
          m_calls m' = m_calls m ++ [mkdir; acquire] ++ s3 ++ s4 ++ s5 ++ [unlock]
          /\ (s3 = [] \/ s3 = [link] \/ s3 = [create])
          /\ (s4 = []
              \/ exists url,
                  Provider.DownloadURL (ProviderCache.Provider cache) = Some url
                  /\ s4 = [FetchCall (URL.String url)
                                     (ArchiveFilename service cache)])
          /\ (s5 = [] \/ (s5 = [unzip] /\ s3 = [create]))).
Proof.
  intros cache mkdir acquire unlock link create unzip.
  pose proof (warmUp_calls env service m) as H. cbv zeta in H.
  rewrite Hrun in H. cbn [fst snd] in H. fold cache in H.
  destruct (enter env service cache m) as [[e|[]] m2]; cbn [fst].
  - left. exists e. destruct H as [-> H]. auto.
  - right. split; [reflexivity | exact H].
Qed.

Lemma warmUp_call_sequence_witness :
  exists body,
    m_calls (snd (warmUp quiet (started "/cache" false)
                         (mkMachine ∅ (unit_of aws false) [])))
    = [MkdirAllCall (providerDir (started "/cache" false) (unit_of aws false));
       AcquireCall (lockFilename (started "/cache" false) (unit_of aws false))]
      ++ body
      ++ [UnlockCall (lockFilename (started "/cache" false) (unit_of aws false))].
Proof.
  assert (Hentered : fst (enter quiet (started "/cache" false) (unit_of aws false)
                                (mkMachine ∅ (unit_of aws false) []))
                     = inr tt)
    by (vm_compute; reflexivity).
  destruct (warmUp quiet (started "/cache" false)
                   (mkMachine ∅ (unit_of aws false) [])) as [r m'] eqn:Hrun.
  destruct (warmUp_call_sequence quiet (started "/cache" false) _ _ _ Hrun)
    as [(e & _ & He & _) | (_ & s3 & s4 & s5 & Hcalls & _)].
  - cbn [m_cache] in He. rewrite Hentered in He. discriminate He.
  - exists (s3 ++ s4 ++ s5). cbn [snd]. rewrite Hcalls.
    cbn [m_calls m_cache]. now rewrite <- !app_assoc.
Defined.

(** X6.  The lock is released on every path on which it was taken, once and
    as the last call of warm-up, and is not released when it was not
    taken. *)
Theorem warmUp_releases_lock (env : Env) (service : ProviderService.t)
    (m : Machine) :
  exists new,
    m_calls (snd (warmUp env service m)) = m_calls m ++ new
    /\ match fst (enter env service (m_cache m) m) with
       | inr _ =>
           last new = Some (UnlockCall (lockFilename service (m_cache m)))
           /\ length (List.filter is_unlock new) = 1
       | inl _ => List.filter is_unlock new = []
       end.
Proof.
  pose proof (warmUp_calls env service m) as H. cbv zeta in H.
  destruct (enter env service (m_cache m) m) as [[e|[]] m2]; cbn [fst].
  - destruct H as [_ [H|H]]; eexists; (split; [exact H | reflexivity]).
  - destruct H as (s3 & s4 & s5 & H & H3 & H4 & H5).
    eexists. split; [exact H|]. split.
    + rewrite !app_assoc. apply last_snoc.
    + assert (E3 : List.filter is_unlock s3 = [])
        by (destruct H3 as [->|[->| ->]]; reflexivity).
      assert (E4 : List.filter is_unlock s4 = [])
        by (destruct H4 as [->|(url & _ & ->)]; reflexivity).
      assert (E5 : List.filter is_unlock s5 = [])
        by (destruct H5 as [->|[-> _]]; reflexivity).
      rewrite !List.filter_app, E3, E4, E5. reflexivity.
Qed.

(** X7.  A platform directory that is already there is taken as cached:
    when warm-up finds it under the lock, and the archive is not required or
    is on disk, warm-up succeeds after releasing the lock, with no call in
    between and the disk as it was when the lock was taken. *)
Theorem warmUp_already_cached (env : Env) (service : ProviderService.t)
    (m m2 : Machine)
    (Henter : enter env service (m_cache m) m = (inr tt, m2))
    (Hplat : Util.FileExists (platformDir service (m_cache m)) (m_fs m2) = true)
    (Harchive : ProviderCache.needCacheArchive (m_cache m) = false
                \/ Util.FileExists (ArchiveFilename service (m_cache m)) (m_fs m2)
                   = true) :
  warmUp env service m
  = (inr tt,
     mkMachine (m_fs m2) (m_cache m)
               (m_calls m2 ++ [UnlockCall (lockFilename service (m_cache m))])).
Proof.
  destruct (enter_inv env service _ _ _ _ Henter) as (Hc2 & _).
  rewrite (warmUp_entered env service m m2 Henter).
  rewrite linkOrCreate_run, Hplat, fetchArchive_run, Hc2.
  assert (Hskip : ProviderCache.needCacheArchive (m_cache m)
                  && negb (Util.FileExists (ArchiveFilename service (m_cache m))
                                           (m_fs m2)) = false).
  { destruct Harchive as [-> | ->]; [reflexivity | apply andb_false_r]. }
  rewrite Hskip, unpack_run. cbn. now rewrite Hc2.
Qed.

Lemma warmUp_already_cached_witness :
  fst (warmUp quiet (started "/cache" false)
              (mkMachine disk_cached (unit_of aws false) []))
  = inr tt.
Proof.
  assert (Hres : fst (enter quiet (started "/cache" false) (unit_of aws false)
                            (mkMachine disk_cached (unit_of aws false) []))
                 = inr tt)
    by (vm_compute; reflexivity).
  assert (Hplat : Util.FileExists
                    (platformDir (started "/cache" false) (unit_of aws false))
                    (m_fs (snd (enter quiet (started "/cache" false)
                                      (unit_of aws false)
                                      (mkMachine disk_cached (unit_of aws false) []))))
                  = true)
    by (vm_compute; reflexivity).
  destruct (enter quiet (started "/cache" false) (unit_of aws false)
                  (mkMachine disk_cached (unit_of aws false) []))
    as [r2 m2] eqn:Henter.
  cbn [fst snd] in Hres, Hplat. subst r2.
  rewrite (warmUp_already_cached quiet (started "/cache" false)
             (mkMachine disk_cached (unit_of aws false) []) m2
             Henter Hplat (or_introl eq_refl)).
  reflexivity.
Defined.

(** X8.  What the task makes of warm-up.  The unit keeps its provider.  If
    warm-up succeeds the task marks the unit ready and leaves the disk and
    the calls as warm-up left them.  If warm-up fails the task returns
    warm-up's error, leaves the ready mark as it was, and makes one more
    call, [os.Remove] on the platform directory, which changes no other
    path on disk. *)
Theorem cacheTask_outcome (env : Env) (service : ProviderService.t)
    (m : Machine) :
  ProviderCache.Provider (m_cache (snd (cacheTask env service m)))
  = ProviderCache.Provider (m_cache m)
  /\ match fst (cacheTask env service m) with
     | inr _ =>
         fst (warmUp env service m) = inr tt
         /\ ProviderCache.ready (m_cache (snd (cacheTask env service m))) = true
         /\ m_fs (snd (cacheTask env service m))
            = m_fs (snd (warmUp env service m))
         /\ m_calls (snd (cacheTask env service m))
            = m_calls (snd (warmUp env service m))
     | inl err =>
         fst (warmUp env service m) = inl err
         /\ ProviderCache.ready (m_cache (snd (cacheTask env service m)))
            = ProviderCache.ready (m_cache m)
         /\ m_calls (snd (cacheTask env service m))
            = m_calls (snd (warmUp env service m))
              ++ [RemoveCall (platformDir service (m_cache m))]
         /\ forall path,
             path <> platformDir service (m_cache m) ->
             m_fs (snd (cacheTask env service m)) !! path
             = m_fs (snd (warmUp env service m)) !! path
     end.
Proof.
  destruct (warmUp_cache env service m) as (Hp & Hr & _).
  unfold cacheTask.
  destruct (warmUp env service m) as [[err|[]] m1]; cbn [fst snd] in *.
  - assert (Hdir : platformDir service (m_cache m1)
                   = platformDir service (m_cache m)).
    { unfold platformDir. now rewrite Hp. }
    rewrite Hdir, os_run.
    unfold Os.Remove.
    destruct (Os.Lstat _ _) as [[| |t]|]; cbn [fst snd m_cache m_calls m_fs].
    + destruct (Os.has_entries _ _); cbn [fst snd m_cache m_calls m_fs].
      * repeat split; auto.
      * repeat split; auto. intros path Hpath.
        now rewrite lookup_delete_ne.
    + repeat split; auto. intros path Hpath. now rewrite lookup_delete_ne.
    + repeat split; auto. intros path Hpath. now rewrite lookup_delete_ne.
    + repeat split; auto.
  - cbn. repeat split; auto.
Qed.

(** ** The worker loop as a whole *)

(** Splits a step into its cases: one goal per event and per guard that
    lets the event happen, the state after the step spelled out. *)
Ltac step_cases Hstep :=
  match type of Hstep with
  | step _ ?ev ?s = Some _ =>
      destruct s as [service disk calls tasks readers writer groupErr cancelled
                     worker waiter finished];
      destruct ev; unfold step in Hstep;
      repeat match type of Hstep with
             | context [match ?x with _ => _ end] =>
                 destruct x eqn:?; try discriminate Hstep
             end;
      injection Hstep as <-
  end.

Lemma run_invariant (env : Env) (P : State -> Prop) :
  (forall ev s s', step env ev s = Some s' -> P s -> P s') ->
  forall evs s s', run env evs s = Some s' -> P s -> P s'.
Proof.
  intros Hstep. induction evs as [|ev evs IH]; simpl; intros s s' Hrun HP.
  - now injection Hrun as <-.
  - destruct (step env ev s) as [s1|] eqn:E1; [|discriminate].
    eapply IH; [exact Hrun|]. eapply Hstep; eassumption.
Qed.

Lemma CacheProvider_new (service service' : ProviderService.t) (P : Provider.t) :
  Find (ProviderService.providerCaches service) P = None ->
  CacheProvider service P = Some service' ->
  ProviderService.providerCaches service'
  = ProviderService.providerCaches service
    ++ [ProviderCache.mk P (ProviderService.needCacheArchive service) false]
  /\ closed (ProviderService.providerCacheCh service')
     = closed (ProviderService.providerCacheCh service)
  /\ closed (ProviderService.providerCacheCh service) = false.
Proof.
  unfold CacheProvider. intros ->.
  destruct (closed (ProviderService.providerCacheCh service)) eqn:E;
    [discriminate|].
  intros [= <-]. simpl. auto.
Qed.

Lemma os_cache (c : call) (op : FS -> error + FS) (m : Machine) :
  m_cache (snd (os c op m)) = m_cache m.
Proof. rewrite os_run. now destruct (op (m_fs m)). Qed.

Lemma cacheTask_cache (env : Env) (service : ProviderService.t) (m : Machine) :
  ProviderCache.Provider (m_cache (snd (cacheTask env service m)))
  = ProviderCache.Provider (m_cache m)
  /\ (ProviderCache.ready (m_cache m) = false ->
      (ProviderCache.ready (m_cache (snd (cacheTask env service m))) = true <->
       exists u, fst (cacheTask env service m) = inr u)).
Proof.
  destruct (warmUp_cache env service m) as (Hp & Hr & _).
  unfold cacheTask.
  destruct (warmUp env service m) as [[err|[]] m1]; cbn [fst snd] in *.
  - rewrite os_cache.
    split; [exact Hp|]. intros H0. rewrite Hr, H0.
    split; [discriminate | intros [u Hu]; discriminate].
  - cbn. split; [exact Hp|]. intros _. split; eauto.
Qed.

Lemma step_ready_inv (env : Env) (ev : event) (s s' : State) :
  step env ev s = Some s' -> ready_inv s -> ready_inv s'.
Proof.
  intros Hstep. step_cases Hstep; unfold ready_inv; cbn;
    intros (Hlen & Hready); try (split; assumption).
  1: { (* a new unit *)
    match goal with
    | Hf : Find _ _ = None, Hc : CacheProvider _ _ = Some _ |- _ =>
        destruct (CacheProvider_new _ _ _ Hf Hc) as (-> & _)
    end.
    split; [rewrite !length_app; simpl; lia|].
    intros i cache Hi.
    apply lookup_app_Some in Hi as [Hi | [Hge Hi]].
    + rewrite (Hready i cache Hi).
      apply lookup_lt_Some in Hi. rewrite <- Hlen in Hi.
      now rewrite lookup_app_l.
    + rewrite <- Hlen in Hge, Hi.
      rewrite lookup_app_r by assumption.
      destruct (i - length tasks) as [|k]; simpl in *; [|discriminate].
      injection Hi as <-. simpl. split; discriminate. }
  1: { (* a task takes the shared claim *)
    split; [now rewrite length_insert|].
    intros j cache Hj. rewrite (Hready j cache Hj).
    destruct (decide (j = i)) as [->|Hne].
    + rewrite list_lookup_insert_eq by (eapply lookup_lt_Some; eassumption).
      split; [congruence | discriminate].
    + now rewrite list_lookup_insert_ne. }
  (* a task runs, and fails or succeeds *)
  all: lazymatch goal with
       | Ht : ?ts !! ?k = Some Holding,
         Hc : ProviderService.providerCaches ?svc !! ?k = Some ?c,
         Hk : cacheTask ?e ?svc ?m0 = (_, _) |- _ =>
           pose proof (cacheTask_cache e svc m0) as (_ & Hmark);
           rewrite Hk in Hmark; cbn [fst snd m_cache] in Hmark;
           assert (Hnot : ProviderCache.ready c = false)
             by (destruct (ProviderCache.ready c) eqn:E; [|reflexivity];
                 apply (Hready k c Hc) in E; congruence);
           specialize (Hmark Hnot);
           split; [now rewrite !length_insert|];
           intros j cache Hj;
           destruct (decide (j = k)) as [->|Hne];
           [ rewrite list_lookup_insert_eq in Hj
               by (eapply lookup_lt_Some; eassumption);
             injection Hj as <-;
             rewrite list_lookup_insert_eq
               by (eapply lookup_lt_Some; eassumption);
             rewrite Hmark;
             split; [intros [? ?] | intros ?];
             try discriminate; try reflexivity; eauto
           | rewrite list_lookup_insert_ne in Hj by congruence;
             rewrite list_lookup_insert_ne by congruence; now apply Hready ]
       end.
Qed.

(** Reads a lookup in an updated list at the updated position and
    elsewhere. *)
Ltac from_insert Hj :=
  match type of Hj with
  | <[?i := _]> ?l !! ?j = _ =>
      destruct (decide (j = i)) as [->|?];
      [ rewrite list_lookup_insert_eq in Hj
          by (eapply lookup_lt_Some; eassumption);
        try discriminate Hj
      | rewrite list_lookup_insert_ne in Hj by congruence ]
  end.

Ltac from_snoc Hj :=
  match type of Hj with
  | (?l ++ [_]) !! ?j = _ =>
      apply lookup_app_Some in Hj as [Hj | [_ Hj]];
      [ | destruct (j - length l); simpl in Hj; try discriminate Hj ]
  end.

Lemma step_failed_inv (env : Env) (ev : event) (s s' : State) :
  step env ev s = Some s' -> failed_inv s -> failed_inv s'.
Proof.
  intros Hstep. step_cases Hstep; unfold failed_inv; cbn;
    intros Hinv; try exact Hinv; try (intros _; reflexivity).
  all: intros (j & err & Hj).
  all: try apply orb_true_r.
  all: rewrite ?orb_false_r; apply Hinv.
  all: try (from_snoc Hj; eauto).
  all: from_insert Hj; eauto.
Qed.

Lemma step_closing_inv (env : Env) (ev : event) (s s' : State) :
  step env ev s = Some s' -> closing_inv s -> closing_inv s'.
Proof.
  intros Hstep. step_cases Hstep; unfold closing_inv; cbn;
    intros (Hclosed & Hwriter); try (split; assumption).
  all: split; [intros Hc | intros Hw]; eauto; try discriminate.
  all: try (destruct (Hclosed Hc) as [?|[? ?]]; discriminate).
  all: try (destruct (Hwriter Hw) as [? ?]; discriminate).
  match goal with
  | Hf : Find _ _ = None, Hcp : CacheProvider _ _ = Some _ |- _ =>
      destruct (CacheProvider_new _ _ _ Hf Hcp) as (_ & Heq & Hfalse)
  end.
  rewrite Heq in Hc. congruence.
Qed.

(** No step removes a tracked unit, moves it or changes its provider. *)
Lemma step_providers (env : Env) (ev : event) (s s' : State) (i : nat)
    (cache : ProviderCache.t) :
  step env ev s = Some s' ->
  ProviderService.providerCaches (s_service s) !! i = Some cache ->
  exists cache',
    ProviderService.providerCaches (s_service s') !! i = Some cache'
    /\ ProviderCache.Provider cache' = ProviderCache.Provider cache.
Proof.
  intros Hstep. step_cases Hstep; cbn; intros Hi; eauto.
  1: { match goal with
       | Hf : Find _ _ = None, Hcp : CacheProvider _ _ = Some _ |- _ =>
           destruct (CacheProvider_new _ _ _ Hf Hcp) as (-> & _)
       end.
       exists cache. split; [now apply lookup_app_l_Some | reflexivity]. }
  all: lazymatch goal with
       | Hk : cacheTask ?e ?svc (mkMachine ?d ?c ?l) = (_, ?m1),
         Hc : ProviderService.providerCaches ?svc !! ?k = Some ?c |- _ =>
           pose proof (cacheTask_cache e svc (mkMachine d c l)) as (Hsame & _);
           rewrite Hk in Hsame; cbn [snd m_cache] in Hsame;
           destruct (decide (i = k)) as [->|?];
           [ exists (m_cache m1); split;
             [ apply list_lookup_insert_eq; eapply lookup_lt_Some; eassumption
             | congruence ]
           | exists cache; split;
             [ rewrite list_lookup_insert_ne by congruence; assumption
             | reflexivity ] ]
       end.
Qed.

Lemma run_providers (env : Env) (evs : list event) :
  forall (s s' : State) (i : nat) (cache : ProviderCache.t),
    run env evs s = Some s' ->
    ProviderService.providerCaches (s_service s) !! i = Some cache ->
    exists cache',
      ProviderService.providerCaches (s_service s') !! i = Some cache'
      /\ ProviderCache.Provider cache' = ProviderCache.Provider cache.
Proof.
  induction evs as [|ev evs IH]; simpl; intros s s' i cache Hrun Hi.
  - injection Hrun as <-. eauto.
  - destruct (step env ev s) as [s1|] eqn:E1; [|discriminate].
    destruct (step_providers env ev s s1 i cache E1 Hi) as (c1 & Hi1 & Hp1).
    destruct (IH s1 s' i c1 Hrun Hi1) as (c' & Hi' & Hp').
    exists c'. split; [exact Hi' | congruence].
Qed.

Lemma init_ready_inv (baseCacheDir : string) (needCacheArchive : bool)
    (disk : FS) :
  ready_inv (init (NewProviderService baseCacheDir needCacheArchive) disk).
Proof.
  split; [reflexivity|]. intros i cache Hi. simpl in Hi.
  now rewrite lookup_nil in Hi.
Qed.

Lemma init_failed_inv (service : ProviderService.t) (disk : FS) :
  failed_inv (init service disk).
Proof.
  intros (i & err & Hi). simpl in Hi. now rewrite lookup_nil in Hi.
Qed.

Lemma init_closing_inv (baseCacheDir : string) (needCacheArchive : bool)
    (disk : FS) :
  closing_inv (init (NewProviderService baseCacheDir needCacheArchive) disk).
Proof. split; discriminate. Qed.

(** X9.  The lookup finds a cache only for a unit whose task has returned
    without error: in every state the service can reach from its
    construction, a cache returned by [GetProviderCache] is a tracked unit
    of the requested identity whose warm-up task has finished
    successfully. *)
Theorem GetProviderCache_after_success (env : Env) (baseCacheDir : string)
    (needCacheArchive : bool) (disk : FS) (evs : list event) (s : State)
    (P : Provider.t) (cache : ProviderCache.t)
    (Hrun : run env evs (init (NewProviderService baseCacheDir needCacheArchive)
                              disk) = Some s)
    (Hget : GetProviderCache (s_service s) P (s_disk s) = Some cache) :
  Provider.Match (ProviderCache.Provider cache) P = true
  /\ exists i,
      ProviderService.providerCaches (s_service s) !! i = Some cache
      /\ s_tasks s !! i = Some (Finished None).
Proof.
  assert (Hinv : ready_inv s).
  { eapply (run_invariant env ready_inv); [apply step_ready_inv | exact Hrun|].
    apply init_ready_inv. }
  apply GetProviderCache_spec in Hget as (Hfind & Hready & _).
  apply Find_Some in Hfind as [Hin Hmatch].
  split; [exact Hmatch|].
  apply list_elem_of_In, list_elem_of_lookup in Hin as [i Hi].
  exists i. split; [exact Hi|]. now apply (proj2 Hinv i cache Hi).
Qed.

Lemma GetProviderCache_after_success_witness :
  exists s cache i,
    run quiet [EvRunCacheWorker; EvCacheProvider aws; EvTaskRLock 0; EvTaskRun 0]
        (init (NewProviderService "/cache" false) ∅) = Some s
    /\ GetProviderCache (s_service s) aws (s_disk s) = Some cache
    /\ s_tasks s !! i = Some (Finished None).
Proof.
  assert (Hget : from_option
                   (fun s => GetProviderCache (s_service s) aws (s_disk s)) None
                   (run quiet [EvRunCacheWorker; EvCacheProvider aws;
                               EvTaskRLock 0; EvTaskRun 0]
                        (init (NewProviderService "/cache" false) ∅))
                 = Some (ProviderCache.mk aws true true))
    by (vm_compute; reflexivity).
  destruct (run quiet [EvRunCacheWorker; EvCacheProvider aws;
                       EvTaskRLock 0; EvTaskRun 0]
                (init (NewProviderService "/cache" false) ∅))
    as [s|] eqn:Hrun; [|discriminate Hget].
  cbn [from_option] in Hget.
  destruct (GetProviderCache_after_success quiet "/cache" false ∅ _ s aws _
              Hrun Hget) as (_ & i & _ & Hi).
  exists s, (ProviderCache.mk aws true true), i. auto.
Defined.

(** X10.  The ready mark never reverts: a unit that is ready in a state the
    service has reached is still tracked at the same position, with the
    same provider and ready, in every later state. *)
Theorem ready_never_reverts (env : Env) (baseCacheDir : string)
    (needCacheArchive : bool) (disk : FS) (evs evs' : list event)
    (s s' : State) (i : nat) (cache : ProviderCache.t)
    (Hrun : run env evs (init (NewProviderService baseCacheDir needCacheArchive)
                              disk) = Some s)
    (Hi : ProviderService.providerCaches (s_service s) !! i = Some cache)
    (Hready : ProviderCache.ready cache = true)
    (Hlater : run env evs' s = Some s') :
  exists cache',
    ProviderService.providerCaches (s_service s') !! i = Some cache'
    /\ ProviderCache.ready cache' = true
    /\ ProviderCache.Provider cache' = ProviderCache.Provider cache.
Proof.
  assert (Hinv : ready_inv s).
  { eapply (run_invariant env ready_inv); [apply step_ready_inv | exact Hrun|].
    apply init_ready_inv. }
  assert (Hinv' : ready_inv s').
  { eapply (run_invariant env ready_inv); [apply step_ready_inv | exact Hlater|].
    exact Hinv. }
  destruct (run_providers env evs' s s' i cache Hlater Hi) as (cache' & Hi' & Hp).
  exists cache'. split; [exact Hi'|]. split; [|exact Hp].
  apply (proj2 Hinv' i cache' Hi').
  eapply run_finished; [exact Hlater|].
  now apply (proj2 Hinv i cache Hi).
Qed.

Lemma ready_never_reverts_witness :
  exists s s' cache',
    run quiet [EvRunCacheWorker; EvCacheProvider aws; EvTaskRLock 0; EvTaskRun 0]
        (init (NewProviderService "/cache" false) ∅) = Some s
    /\ run quiet [EvCancel; EvCtxDone; EvWorkerReturn] s = Some s'
    /\ ProviderService.providerCaches (s_service s') !! 0 = Some cache'
    /\ ProviderCache.ready cache' = true.
Proof.
  assert (Hfacts :
            match run quiet [EvRunCacheWorker; EvCacheProvider aws;
                             EvTaskRLock 0; EvTaskRun 0]
                      (init (NewProviderService "/cache" false) ∅) with
            | Some s =>
                (ProviderService.providerCaches (s_service s) !! 0,
                 from_option (fun _ => true) false
                   (run quiet [EvCancel; EvCtxDone; EvWorkerReturn] s))
            | None => (None, false)
            end = (Some (ProviderCache.mk aws true true), true))
    by (vm_compute; reflexivity).
  destruct (run quiet [EvRunCacheWorker; EvCacheProvider aws;
                       EvTaskRLock 0; EvTaskRun 0]
                (init (NewProviderService "/cache" false) ∅))
    as [s|] eqn:Hrun; [|discriminate Hfacts].
  injection Hfacts as Hi Hsome.
  destruct (run quiet [EvCancel; EvCtxDone; EvWorkerReturn] s)
    as [s'|] eqn:Hlater;
    [|simpl in Hlater; rewrite Hlater in Hsome; discriminate Hsome].
  destruct (ready_never_reverts quiet "/cache" false ∅ _ _ s s' 0 _
              Hrun Hi eq_refl Hlater) as (cache' & Hi' & Hr' & _).
  exists s, s', cache'. auto.
Defined.

Lemma prefix_by_lookup {A} (l1 l2 : list A) :
  (forall i x, l1 !! i = Some x -> l2 !! i = Some x) -> l1 `prefix_of` l2.
Proof.
  revert l2. induction l1 as [|x l1 IH]; intros l2 H.
  - apply prefix_nil.
  - destruct l2 as [|y l2].
    + specialize (H 0 x eq_refl). discriminate.
    + pose proof (H 0 x eq_refl) as H0. injection H0 as <-.
      apply prefix_cons. apply IH. intros i z Hi. exact (H (S i) z Hi).
Qed.

(** X11.  The tracked collection only grows at its end: whatever happens,
    the providers of the units tracked before are, in the same order, the
    first providers tracked after; no unit is removed, moved or given
    another provider. *)
Theorem tracked_units_append_only (env : Env) (evs : list event) (s s' : State)
    (Hrun : run env evs s = Some s') :
  map ProviderCache.Provider (ProviderService.providerCaches (s_service s))
  `prefix_of`
  map ProviderCache.Provider (ProviderService.providerCaches (s_service s')).
Proof.
  apply prefix_by_lookup. intros i P Hi.
  rewrite list_lookup_fmap in Hi |- *.
  destruct (ProviderService.providerCaches (s_service s) !! i) as [cache|] eqn:E;
    [|discriminate].
  injection Hi as <-.
  destruct (run_providers env evs s s' i cache Hrun E) as (cache' & -> & Hp).
  simpl. now rewrite Hp.
Qed.

Lemma tracked_units_append_only_witness :
  exists s',
    run quiet [EvCacheProvider random_unresolved; EvTaskRLock 0; EvTaskRun 0]
        (mkState (with_caches [unit_of aws false] (started "/cache" false))
                 ∅ [] [Spawned] 0 false None false Running Idle []) = Some s'
    /\ [aws] `prefix_of`
       map ProviderCache.Provider (ProviderService.providerCaches (s_service s')).
Proof.
  assert (Hsome : from_option (fun _ => true) false
                    (run quiet [EvCacheProvider random_unresolved;
                                EvTaskRLock 0; EvTaskRun 0]
                         (mkState (with_caches [unit_of aws false]
                                                (started "/cache" false))
                                  ∅ [] [Spawned] 0 false None false Running Idle []))
                  = true)
    by (vm_compute; reflexivity).
  destruct (run quiet _ _) as [s'|] eqn:Hrun; [|discriminate Hsome].
  exists s'. split; [reflexivity|].
  exact (tracked_units_append_only quiet _ _ s' Hrun).
Defined.

(** X12.  One failed warm-up stops the worker: the tasks run under a group
    whose context is the one the loop selects on, so as soon as a task has
    returned an error the context is cancelled, and a worker still in its
    loop can take the shutdown branch, which closes the channel. *)
Theorem failed_task_cancels_worker (env : Env) (service0 : ProviderService.t)
    (disk0 : FS) (evs : list event) (s : State) (i : nat) (err : error)
    (Hrun : run env evs (init service0 disk0) = Some s)
    (Hfailed : s_tasks s !! i = Some (Finished (Some err))) :
  s_cancelled s = true
  /\ (s_worker s = Running ->
      exists s1,
        step env EvCtxDone s = Some s1
        /\ s_worker s1 = Draining
        /\ closed (ProviderService.providerCacheCh (s_service s1)) = true).
Proof.
  assert (Hinv : failed_inv s).
  { eapply (run_invariant env failed_inv); [apply step_failed_inv | exact Hrun|].
    apply init_failed_inv. }
  assert (Hc : s_cancelled s = true) by (apply Hinv; eauto).
  split; [exact Hc|]. intros Hw.
  destruct s as [service disk calls tasks readers writer groupErr cancelled
                 worker waiter finished].
  simpl in Hc, Hw. subst. eexists. split; [reflexivity|]. split; reflexivity.
Qed.

Lemma failed_task_cancels_worker_witness :
  exists s,
    run quiet [EvRunCacheWorker; EvCacheProvider aws_unresolved;
               EvTaskRLock 0; EvTaskRun 0]
        (init (NewProviderService "/cache" false) ∅) = Some s
    /\ s_cancelled s = true.
Proof.
  assert (Hfailed :
            from_option (fun s => s_tasks s !! 0) None
              (run quiet [EvRunCacheWorker; EvCacheProvider aws_unresolved;
                          EvTaskRLock 0; EvTaskRun 0]
                   (init (NewProviderService "/cache" false) ∅))
            = Some (Finished (Some (DownloadURLUndefined aws_unresolved))))
    by (vm_compute; reflexivity).
  destruct (run quiet [EvRunCacheWorker; EvCacheProvider aws_unresolved;
                       EvTaskRLock 0; EvTaskRun 0]
                (init (NewProviderService "/cache" false) ∅))
    as [s|] eqn:Hrun; [|discriminate Hfailed].
  cbn [from_option] in Hfailed.
  destruct (failed_task_cancels_worker quiet _ _ _ s 0 _ Hrun Hfailed)
    as [Hc _].
  exists s. auto.
Defined.




(** X14.  An empty cache directory is refused at once: [RunCacheWorker]
    returns the error before it enters its loop, so whatever is called
    afterwards, no unit is received, no task exists, and the disk and the
    tracked collection stay as they were. *)
Theorem worker_refuses_empty_cache_dir (env : Env)
    (service0 : ProviderService.t) (disk0 : FS) (evs : list event) (s : State)
    (Hempty : ProviderService.baseCacheDir service0 = "")
    (Hrun : run env (EvRunCacheWorker :: evs) (init service0 disk0) = Some s) :
  s_worker s = Returned [CacheDirNotSpecified]
  /\ s_tasks s = []
  /\ s_disk s = disk0
  /\ s_calls s = []
  /\ s_service s = service0.
Proof.
  pose (Q := fun t : State =>
               s_worker t = Returned [CacheDirNotSpecified]
               /\ s_tasks t = [] /\ s_disk t = disk0 /\ s_calls t = []
               /\ s_service t = service0).
  change (Q s). simpl in Hrun. rewrite Hempty in Hrun. simpl in Hrun.
  eapply (run_invariant env Q); [|exact Hrun|].
  - intros ev t t' Hstep. step_cases Hstep; unfold Q; cbn;
      intros (Hw & Ht & Hd & Hc & Hs); subst; try discriminate;
      try (repeat split; reflexivity).
  - repeat split; reflexivity.
Qed.

Lemma worker_refuses_empty_cache_dir_witness :
  exists s,
    run quiet [EvRunCacheWorker; EvCacheProvider aws; EvWaitCall; EvWaitLock]
        (init (NewProviderService "" false) ∅) = None
    /\ run quiet [EvRunCacheWorker; EvWaitCall; EvWaitLock; EvWaitUnlock]
           (init (NewProviderService "" false) ∅) = Some s
    /\ s_worker s = Returned [CacheDirNotSpecified].
Proof.
  destruct (run quiet [EvRunCacheWorker; EvWaitCall; EvWaitLock; EvWaitUnlock]
                (init (NewProviderService "" false) ∅)) as [s|] eqn:Hrun;
    [|discriminate Hrun].
  destruct (worker_refuses_empty_cache_dir quiet (NewProviderService "" false) ∅
              _ s eq_refl Hrun) as (Hw & _).
  exists s. split; [reflexivity|]. split; [reflexivity | exact Hw].
Defined.

(** ** The readiness gate *)

(** X15.  While a caller of [WaitForCacheReady] holds the gate, warm-up is
    shut out: in a state the service can reach, no task is between its
    [RLock] and its [RUnlock], no task can take the read lock, and so no
    task can run its warm-up. *)
Theorem gate_shuts_out_tasks (env : Env) (baseCacheDir : string)
    (needCacheArchive : bool) (disk : FS) (evs : list event) (s : State)
    (n : nat)
    (Hrun : run env evs (init (NewProviderService baseCacheDir needCacheArchive)
                              disk) = Some s)
    (Hlocked : s_waiter s = Locked n) :
  forall i,
    s_tasks s !! i <> Some Holding
    /\ step env (EvTaskRLock i) s = None
    /\ step env (EvTaskRun i) s = None.
Proof.
  intros i.
  assert (Hinv : gate_inv s).
  { eapply run_gate_inv; [exact Hrun|].
    split; [reflexivity|]. split; [discriminate|]. intros k Hk. discriminate. }
  destruct Hinv as (Hr & Hw & Hl).
  assert (Hwriter : s_writer s = true) by (eapply Hl; exact Hlocked).
  assert (Hnone : s_tasks s !! i <> Some Holding).
  { apply holding_zero. rewrite <- Hr. now apply Hw. }
  split; [exact Hnone|].
  destruct s as [service disk1 calls tasks readers writer groupErr cancelled
                   worker waiter finished].
  cbn [s_tasks s_writer] in *. subst writer. split.
  - cbn [step]. destruct (tasks !! i) as [[| |e]|]; reflexivity.
  - cbn [step]. destruct (tasks !! i) as [[| |e]|]; try reflexivity.
    congruence.
Qed.

Lemma gate_shuts_out_tasks_witness :
  exists s,
    run quiet [EvRunCacheWorker; EvCacheProvider aws; EvTaskRLock 0; EvTaskRun 0;
               EvWaitCall; EvWaitLock; EvCacheProvider random_unresolved]
        (init (NewProviderService "/cache" false) ∅) = Some s
    /\ s_waiter s = Locked 1
    /\ forall i,
        s_tasks s !! i <> Some Holding
        /\ step quiet (EvTaskRLock i) s = None
        /\ step quiet (EvTaskRun i) s = None.
Proof.
  assert (Hlocked :
            from_option s_waiter Idle
              (run quiet [EvRunCacheWorker; EvCacheProvider aws; EvTaskRLock 0;
                          EvTaskRun 0; EvWaitCall; EvWaitLock;
                          EvCacheProvider random_unresolved]
                   (init (NewProviderService "/cache" false) ∅))
            = Locked 1)
    by (vm_compute; reflexivity).
  destruct (run quiet [EvRunCacheWorker; EvCacheProvider aws; EvTaskRLock 0;
                       EvTaskRun 0; EvWaitCall; EvWaitLock;
                       EvCacheProvider random_unresolved]
                (init (NewProviderService "/cache" false) ∅))
    as [s|] eqn:Hrun; [|discriminate Hlocked].
  cbn [from_option] in Hlocked.
  exists s. split; [reflexivity|]. split; [exact Hlocked|].
  exact (gate_shuts_out_tasks quiet "/cache" false ∅ _ s 1 Hrun Hlocked).
Defined.





(** ** Archive cleanup *)

Lemma removeArchive_frame (service : ProviderService.t) (m : Machine) :
  m_cache (snd (removeArchive service m)) = m_cache m
  /\ (forall path,
         path <> ArchiveFilename service (m_cache m) ->
         m_fs (snd (removeArchive service m)) !! path = m_fs m !! path)
  /\ (forall path node,
         m_fs (snd (removeArchive service m)) !! path = Some node ->
         m_fs m !! path = Some node).
Proof.
  unfold removeArchive, get_needCacheArchive, FileExists, mbind, M_bind.
  destruct (_ && _); [|cbn; auto].
  rewrite os_run. unfold Os.Remove.
  assert (Hdel : forall path node,
             delete (ArchiveFilename service (m_cache m)) (m_fs m) !! path
             = Some node ->
             m_fs m !! path = Some node).
  { intros path node H. apply lookup_delete_Some in H. tauto. }
  destruct (Os.Lstat _ _) as [[| |t]|]; cbn [snd m_fs m_cache].
  - destruct (Os.has_entries _ _); cbn [snd m_fs m_cache].
    + auto.
    + split; [reflexivity|]. split; [|exact Hdel].
      intros path Hp. now rewrite lookup_delete_ne.
  - split; [reflexivity|]. split; [|exact Hdel].
    intros path Hp. now rewrite lookup_delete_ne.
  - split; [reflexivity|]. split; [|exact Hdel].
    intros path Hp. now rewrite lookup_delete_ne.
  - auto.
Qed.

(** X17.  A failure does not stop the cleanup loop: cleaning a collection
    is cleaning its first part and then, on the disk that leaves and
    whatever errors it gave, cleaning the rest; the errors of both parts
    are reported, in order. *)
Theorem cleanup_continues_after_failure (service : ProviderService.t)
    (first rest : ProviderCaches) (fs : FS) (calls : list call) :
  removeArchives service (first ++ rest) fs calls
  = let '(errs1, (fs1, calls1)) := removeArchives service first fs calls in
    let '(errs2, out) := removeArchives service rest fs1 calls1 in
    (errs1 ++ errs2, out).
Proof.
  revert fs calls. induction first as [|cache first IH]; intros fs calls.
  - simpl. now destruct (removeArchives service rest fs calls) as [errs2 out].
  - simpl. destruct (removeArchive service (mkMachine fs cache calls)) as [r m].
    rewrite IH.
    destruct (removeArchives service first (m_fs m) (m_calls m))
      as [errs1 [fs1 calls1]].
    destruct (removeArchives service rest fs1 calls1) as [errs2 out].
    now destruct r.
Qed.

(** X18.  Cleanup only deletes, and only archives: after the cleanup loop
    every path that is not the archive path of a tracked unit is on disk as
    it was before, and nothing is on disk that was not there before. *)
Theorem cleanup_touches_archives_only (service : ProviderService.t)
    (caches : ProviderCaches) (fs : FS) (calls : list call) :
  (forall path,
      Forall (fun cache => ArchiveFilename service cache <> path) caches ->
      fst (snd (removeArchives service caches fs calls)) !! path = fs !! path)
  /\ (forall path node,
         fst (snd (removeArchives service caches fs calls)) !! path = Some node ->
         fs !! path = Some node).
Proof.
  revert fs calls. induction caches as [|cache caches IH]; intros fs calls.
  - simpl. auto.
  - simpl.
    destruct (removeArchive_frame service (mkMachine fs cache calls))
      as (_ & Hframe & Hsub).
    destruct (removeArchive service (mkMachine fs cache calls)) as [r m].
    destruct (IH (m_fs m) (m_calls m)) as [IHframe IHsub].
    destruct (removeArchives service caches (m_fs m) (m_calls m))
      as [errs [fs' calls']].
    cbn [fst snd m_fs m_cache] in *. split.
    + intros path Hall. inversion Hall as [|? ? Hne Hrest]; subst.
      rewrite (IHframe path Hrest). apply Hframe. congruence.
    + intros path node H. apply Hsub. now apply IHsub.
Qed.

(** ** The archive path *)

Lemma Clean_not_empty (path : string) : Filepath.Clean path <> "".
Proof.
  unfold Filepath.Clean.
  destruct (String.eqb path ""); [discriminate|].
  destruct (Filepath.is_rooted path); [discriminate|].
  destruct (String.eqb_spec (Filepath.join_sep (Filepath.clean_elems path)) "");
    [discriminate | assumption].
Qed.

Lemma Join_not_empty (elems : list string) :
  Exists (fun e => e <> "") elems -> Filepath.Join elems <> "".
Proof.
  induction elems as [|e elems IH]; intros H; [inversion H|].
  simpl. destruct (String.eqb_spec e "") as [->|Hne].
  - inversion H; subst; [congruence | auto].
  - apply Clean_not_empty.
Qed.

Lemma Base_not_empty (path : string) : Filepath.Base path <> "".
Proof.
  unfold Filepath.Base.
  destruct (String.eqb path ""); [discriminate|].
  destruct (List.filter _ _) as [|c l] eqn:E; [discriminate|].
  assert (Hin : In c (List.filter
                        (fun c => negb (String.eqb c ""))
                        (rev (Filepath.split_sep path))))
    by (rewrite E; now left).
  apply List.filter_In in Hin as [_ Hc].
  apply negb_true_iff, String.eqb_neq in Hc. exact Hc.
Qed.

(** X19.  The archive path is empty exactly when the provider has no
    download URL; with a URL, whatever its path, the unit has a proper
    archive path to look for. *)
Theorem ArchiveFilename_empty_iff (service : ProviderService.t)
    (cache : ProviderCache.t) :
  ArchiveFilename service cache = "" <->
  Provider.DownloadURL (ProviderCache.Provider cache) = None.
Proof.
  unfold ArchiveFilename.
  destruct (Provider.DownloadURL (ProviderCache.Provider cache)) as [url|].
  - split; [|discriminate]. intros H. exfalso. revert H.
    apply Join_not_empty. apply Exists_cons_tl, Exists_cons_tl, Exists_cons_hd.
    apply Base_not_empty.
  - tauto.
Qed.

(** X20.  The archive lies in the provider directory: when the last element
    of the URL's path is an ordinary file name (no dot element, not the
    root) and the provider directory is not [.], the provider directory is
    a proper prefix of the archive path. *)
Theorem ArchiveFilename_in_providerDir (service : ProviderService.t)
    (cache : ProviderCache.t) (url : URL.t)
    (Hurl : Provider.DownloadURL (ProviderCache.Provider cache) = Some url)
    (Hname : Filepath.plain (Filepath.Base (URL.Path url)))
    (Hdot : providerDir service cache <> ".") :
  Filepath.proper_prefix (providerDir service cache)
                         (ArchiveFilename service cache).
Proof.
  unfold ArchiveFilename. rewrite Hurl. unfold providerDir in *.
  now apply Join_extend.
Qed.

Lemma ArchiveFilename_in_providerDir_witness :
  Filepath.proper_prefix
    (providerDir (started "/cache" false) (unit_of aws false))
    (ArchiveFilename (started "/cache" false) (unit_of aws false)).
Proof.
  apply (ArchiveFilename_in_providerDir (started "/cache" false)
           (unit_of aws false) aws_url).
  - reflexivity.
  - repeat split; vm_compute; discriminate.
  - vm_compute. discriminate.
Defined.

(** ** Set-up of the worker *)

Lemma CacheProvider_settings (service service' : ProviderService.t)
    (P : Provider.t) :
  CacheProvider service P = Some service' ->
  ProviderService.baseCacheDir service' = ProviderService.baseCacheDir service
  /\ ProviderService.needCacheArchive service'
     = ProviderService.needCacheArchive service
  /\ ProviderService.terraformPluginDir service'
     = ProviderService.terraformPluginDir service.
Proof.
  unfold CacheProvider.
  destruct (Find _ _); [intros [= <-]; auto|].
  destruct (closed _); [discriminate|].
  intros [= <-]. simpl. auto.
Qed.

Lemma step_setup_inv (env : Env) (baseCacheDir : string)
    (needCacheArchive : bool) (ev : event) (s s' : State) :
  step env ev s = Some s' ->
  setup_inv env baseCacheDir needCacheArchive s ->
  setup_inv env baseCacheDir needCacheArchive s'.
Proof.
  intros Hstep. step_cases Hstep; unfold setup_inv; cbn;
    intros (Hbase & Hneed & Hsetup);
    try (split; [exact Hbase|]; split; [exact Hneed|]; exact Hsetup);
    try (split; [exact Hbase|]; split; [exact Hneed|];
         destruct Hsetup as [(? & ? & ? & ?) | Hok];
         [ first [ left; repeat split; (assumption || discriminate)
                 | congruence
                 | subst; simpl in *; discriminate ]
         | right; exact Hok ]).
  all: try (split; [exact Hbase|]; split; [exact Hneed|]; right;
            split;
            [ intros ->; lazymatch goal with
                         | H : String.eqb _ _ = false |- _ =>
                             rewrite Hbase in H; discriminate H
                         end
            | eexists; split; [eassumption | reflexivity] ]).
  all: try (lazymatch goal with
            | Hc : CacheProvider _ _ = Some _ |- _ =>
                destruct (CacheProvider_settings _ _ _ Hc) as (-> & -> & ->)
            end;
            split; [exact Hbase|]; split; [exact Hneed|];
            destruct Hsetup as [(? & ? & ? & ?) | Hok];
            [congruence | right; exact Hok]).
Qed.

Lemma init_setup_inv (env : Env) (baseCacheDir : string)
    (needCacheArchive : bool) (disk : FS) :
  setup_inv env baseCacheDir needCacheArchive
            (init (NewProviderService baseCacheDir needCacheArchive) disk).
Proof.
  split; [reflexivity|]. split; [reflexivity|]. left.
  repeat split; discriminate.
Qed.

(** X21.  No provider is warmed up before the worker has set up: in a state
    the service can reach, a task exists only if the cache directory is not
    empty and the CLI configuration directory was found, and then the
    plugin directory every warm-up looks into is [plugins] under that
    directory, and the cache directory and the retention setting are those
    the service was made with. *)
Theorem tasks_start_after_setup (env : Env) (baseCacheDir : string)
    (needCacheArchive : bool) (disk : FS) (evs : list event) (s : State)
    (i : nat) (t : TaskState)
    (Hrun : run env evs (init (NewProviderService baseCacheDir needCacheArchive)
                              disk) = Some s)
    (Htask : s_tasks s !! i = Some t) :
  baseCacheDir <> ""
  /\ (exists configDir,
         config_dir env = inr configDir
         /\ ProviderService.terraformPluginDir (s_service s)
            = Filepath.Join [configDir; "plugins"])
  /\ ProviderService.baseCacheDir (s_service s) = baseCacheDir
  /\ ProviderService.needCacheArchive (s_service s) = needCacheArchive.
Proof.
  assert (Hinv : setup_inv env baseCacheDir needCacheArchive s).
  { eapply (run_invariant env (setup_inv env baseCacheDir needCacheArchive));
      [intros ev; apply step_setup_inv | exact Hrun | apply init_setup_inv]. }
  destruct Hinv as (Hbase & Hneed & [(Hnil & _) | (Hne & Hdir)]).
  - rewrite Hnil in Htask. discriminate Htask.
  - auto.
Qed.

Lemma tasks_start_after_setup_witness :
  exists s,
    run quiet [EvRunCacheWorker; EvCacheProvider aws]
        (init (NewProviderService "/cache" true) ∅) = Some s
    /\ s_tasks s !! 0 = Some Spawned
    /\ "/cache" <> ""
    /\ (exists configDir,
           config_dir quiet = inr configDir
           /\ ProviderService.terraformPluginDir (s_service s)
              = Filepath.Join [configDir; "plugins"])
    /\ ProviderService.baseCacheDir (s_service s) = "/cache"
    /\ ProviderService.needCacheArchive (s_service s) = true.
Proof.
  assert (Htask :
            from_option (fun s => s_tasks s !! 0) None
              (run quiet [EvRunCacheWorker; EvCacheProvider aws]
                   (init (NewProviderService "/cache" true) ∅))
            = Some Spawned)
    by (vm_compute; reflexivity).
  destruct (run quiet [EvRunCacheWorker; EvCacheProvider aws]
                (init (NewProviderService "/cache" true) ∅))
    as [s|] eqn:Hrun; [|discriminate Htask].
  cbn [from_option] in Htask.
  exists s. split; [reflexivity|]. split; [exact Htask|].
  exact (tasks_start_after_setup quiet "/cache" true ∅ _ s 0 Spawned Hrun Htask).
Defined.

(** X22.  While the worker is in its loop the channel is open, so the
    branch for a closed channel is never taken, and a provider of a new
    identity always gets through: it is tracked last, not ready, with the
    retention setting the service was made with, one task is spawned for
    it at the same position, and nothing on disk changes. *)
Theorem running_worker_accepts (env : Env) (baseCacheDir : string)
    (needCacheArchive : bool) (disk : FS) (evs : list event) (s : State)
    (P : Provider.t)
    (Hrun : run env evs (init (NewProviderService baseCacheDir needCacheArchive)
                              disk) = Some s)
    (Hrunning : s_worker s = Running)
    (Hnew : Find (ProviderService.providerCaches (s_service s)) P = None) :
  closed (ProviderService.providerCacheCh (s_service s)) = false
  /\ exists s',
      step env (EvCacheProvider P) s = Some s'
      /\ ProviderService.providerCaches (s_service s')
         = ProviderService.providerCaches (s_service s)
           ++ [ProviderCache.mk P needCacheArchive false]
      /\ s_tasks s' = s_tasks s ++ [Spawned]
      /\ length (s_tasks s) = length (ProviderService.providerCaches (s_service s))
      /\ s_disk s' = s_disk s
      /\ s_worker s' = Running.
Proof.
  assert (Hsetup : setup_inv env baseCacheDir needCacheArchive s).
  { eapply (run_invariant env (setup_inv env baseCacheDir needCacheArchive));
      [intros ev; apply step_setup_inv | exact Hrun | apply init_setup_inv]. }
  assert (Hclosing : closing_inv s).
  { eapply (run_invariant env closing_inv);
      [apply step_closing_inv | exact Hrun | apply init_closing_inv]. }
  assert (Hready : ready_inv s).
  { eapply (run_invariant env ready_inv);
      [apply step_ready_inv | exact Hrun | apply init_ready_inv]. }
  destruct Hsetup as (_ & Hneed & _).
  destruct Hclosing as (Hclosed & _).
  destruct Hready as (Hlen & _).
  assert (Hopen : closed (ProviderService.providerCacheCh (s_service s)) = false).
  { destruct (closed _) eqn:E; [|reflexivity].
    destruct (Hclosed eq_refl) as [Hd | [errs Hr]]; congruence. }
  split; [exact Hopen|].
  destruct s as [service disk1 calls tasks readers writer groupErr cancelled
                   worker waiter finished].
  cbn [s_service s_worker s_tasks s_disk] in *. subst worker.
  cbn [step]. rewrite Hnew.
  unfold CacheProvider. rewrite Hnew, Hopen.
  eexists. split; [reflexivity|].
  cbn. rewrite Hneed. auto 10.
Qed.

Lemma running_worker_accepts_witness :
  exists s,
    run quiet [EvRunCacheWorker; EvCacheProvider aws; EvTaskRLock 0; EvTaskRun 0]
        (init (NewProviderService "/cache" true) ∅) = Some s
    /\ closed (ProviderService.providerCacheCh (s_service s)) = false
    /\ exists s',
        step quiet (EvCacheProvider random_unresolved) s = Some s'
        /\ ProviderService.providerCaches (s_service s')
           = ProviderService.providerCaches (s_service s)
             ++ [ProviderCache.mk random_unresolved true false]
        /\ s_tasks s' = s_tasks s ++ [Spawned]
        /\ length (s_tasks s)
           = length (ProviderService.providerCaches (s_service s))
        /\ s_disk s' = s_disk s
        /\ s_worker s' = Running.
Proof.
  assert (Hfacts :
            from_option
              (fun s => (s_worker s,
                         Find (ProviderService.providerCaches (s_service s))
                              random_unresolved))
              (NotStarted, None)
              (run quiet [EvRunCacheWorker; EvCacheProvider aws; EvTaskRLock 0;
                          EvTaskRun 0]
                   (init (NewProviderService "/cache" true) ∅))
            = (Running, None))
    by (vm_compute; reflexivity).
  destruct (run quiet [EvRunCacheWorker; EvCacheProvider aws; EvTaskRLock 0;
                       EvTaskRun 0]
                (init (NewProviderService "/cache" true) ∅))
    as [s|] eqn:Hrun; [|discriminate Hfacts].
  cbn [from_option] in Hfacts. injection Hfacts as Hrunning Hnew.
  exists s. split; [reflexivity|].
  exact (running_worker_accepts quiet "/cache" true ∅ _ s random_unresolved
           Hrun Hrunning Hnew).
Defined.

(** ** C4: shutdown of the worker loop *)

Lemma run_app (env : Env) (evs1 evs2 : list event) (s : State) :
  run env (evs1 ++ evs2) s
  = match run env evs1 s with
    | Some s1 => run env evs2 s1
    | None => None
    end.
Proof.
  revert s. induction evs1 as [|ev evs1 IH]; intros s; simpl; [reflexivity|].
  destruct (step env ev s); [apply IH | reflexivity].
Qed.

(** *** The log of returned tasks *)

Lemma step_finished_inv (env : Env) (ev : event) (s s' : State) :
  step env ev s = Some s' -> finished_inv s -> finished_inv s'.
Proof.
  intros Hstep. step_cases Hstep; unfold finished_inv; cbn;
    intros Hinv; try exact Hinv.
  1: { (* a new unit *)
    intros j err. rewrite (Hinv j err). split.
    - apply lookup_app_l_Some.
    - intros Hj. now from_snoc Hj. }
  1: { (* a task takes the shared claim *)
    intros j err. rewrite (Hinv j err). split; intros Hj.
    - destruct (decide (j = i)) as [->|?]; [congruence|].
      now rewrite list_lookup_insert_ne by congruence.
    - now from_insert Hj. }
  (* a task returns, with or without error *)
  all: intros j err; rewrite in_app_iff, (Hinv j err); simpl; split;
    [ intros [Hj | [[= <- <-] | []]];
      [ destruct (decide (j = i)) as [->|?]; [congruence|];
        now rewrite list_lookup_insert_ne by congruence
      | apply list_lookup_insert_eq; eapply lookup_lt_Some; eassumption ]
    | intros Hj; destruct (decide (j = i)) as [->|?];
      [ rewrite list_lookup_insert_eq in Hj
          by (eapply lookup_lt_Some; eassumption);
        injection Hj as <-; auto
      | rewrite list_lookup_insert_ne in Hj by congruence; auto ] ].
Qed.

Lemma init_finished_inv (service : ProviderService.t) (disk : FS) :
  finished_inv (init service disk).
Proof.
  intros i err. simpl. rewrite lookup_nil. split; [intros [] | discriminate].
Qed.

Lemma first_failure_Some (finished : list (nat * option error)) (e : error) :
  first_failure finished = Some e -> exists i, In (i, Some e) finished.
Proof.
  induction finished as [|[j [e'|]] finished IH]; simpl; intros H.
  - discriminate.
  - injection H as ->. exists j. now left.
  - destruct (IH H) as [i Hi]. exists i. now right.
Qed.

Lemma first_failure_None (finished : list (nat * option error)) (i : nat)
    (e : error) :
  first_failure finished = None -> ~ In (i, Some e) finished.
Proof.
  induction finished as [|[j [e'|]] finished IH]; simpl; intros H.
  - tauto.
  - discriminate.
  - intros [Heq | Hin]; [discriminate | now apply IH].
Qed.

(** *** What the cleanup loop reports *)

Lemma follow_mono (fs fs' : FS) :
  (forall p x, fs' !! p = Some x -> fs !! p = Some x) ->
  forall fuel path n,
    Os.follow fuel path fs' = Some n -> Os.follow fuel path fs = Some n.
Proof.
  intros Hsub. induction fuel as [|fuel IH]; intros path n; simpl;
    unfold Os.Lstat; destruct (String.eqb path ""); try discriminate;
    destruct (fs' !! path) as [x|] eqn:E; try discriminate;
    rewrite (Hsub _ _ E); destruct x; auto.
Qed.

Lemma FileExists_mono (fs fs' : FS) (path : string) :
  (forall p x, fs' !! p = Some x -> fs !! p = Some x) ->
  Util.FileExists path fs' = true -> Util.FileExists path fs = true.
Proof.
  intros Hsub. unfold Util.FileExists, Os.Stat.
  destruct (Os.follow Os.MAXSYMLINKS path fs') as [n|] eqn:E; [|discriminate].
  now rewrite (follow_mono fs fs' Hsub _ _ _ E).
Qed.

Lemma FileExists_absent (fs : FS) (path : string) :
  fs !! path = None -> Util.FileExists path fs = false.
Proof.
  intros H. destruct (Util.FileExists path fs) eqn:E; [|reflexivity].
  apply FileExists_Lstat in E. unfold Os.Lstat in E.
  destruct (String.eqb path ""); congruence.
Qed.

(** One unit of the cleanup: an error is the failure of [os.Remove] on the
    archive of a unit whose flag is set; without error, the archive of a
    unit whose flag is set is not on disk any more. *)
Lemma removeArchive_outcome (service : ProviderService.t) (m : Machine) :
  match fst (removeArchive service m) with
  | inl e =>
      ProviderCache.needCacheArchive (m_cache m) = true
      /\ e = cleanup_failure service (m_cache m)
  | inr _ =>
      ProviderCache.needCacheArchive (m_cache m) = true ->
      Util.FileExists (ArchiveFilename service (m_cache m))
                      (m_fs (snd (removeArchive service m))) = false
  end.
Proof.
  unfold removeArchive, get_needCacheArchive, FileExists, mbind, M_bind.
  destruct (ProviderCache.needCacheArchive (m_cache m)) eqn:Hflag;
    [|cbn; discriminate].
  destruct (Util.FileExists (ArchiveFilename service (m_cache m)) (m_fs m))
    eqn:Hexists; [|cbn; auto].
  cbn [andb]. rewrite os_run. unfold Os.Remove.
  pose proof (FileExists_Lstat _ _ Hexists) as Hlstat.
  destruct (Os.Lstat _ _) as [[| |t]|]; [| | |congruence].
  - destruct (Os.has_entries _ _); cbn [fst snd m_fs].
    + split; reflexivity.
    + intros _. apply FileExists_absent, lookup_delete_eq.
  - cbn [fst snd m_fs]. intros _. apply FileExists_absent, lookup_delete_eq.
  - cbn [fst snd m_fs]. intros _. apply FileExists_absent, lookup_delete_eq.
Qed.

Lemma removeArchives_only_deletes (service : ProviderService.t)
    (caches : ProviderCaches) :
  forall (fs : FS) (calls : list call) (path : string) (x : node),
    fst (snd (removeArchives service caches fs calls)) !! path = Some x ->
    fs !! path = Some x.
Proof.
  induction caches as [|cache caches IH]; intros fs calls path x; simpl.
  - auto.
  - destruct (removeArchive_frame service (mkMachine fs cache calls))
      as (_ & _ & Hsub).
    destruct (removeArchive service (mkMachine fs cache calls)) as [r m].
    specialize (IH (m_fs m) (m_calls m) path x).
    destruct (removeArchives service caches (m_fs m) (m_calls m))
      as [errs [fs' calls']].
    cbn [fst snd m_fs] in *. intros H. apply Hsub. now apply IH.
Qed.

(** The loop as a whole: every error it reports is the failed removal of
    the archive of a tracked unit whose flag is set, and for every such
    unit whose archive is still on disk after the loop, the failure is
    among the errors reported. *)
Lemma removeArchives_reports (service : ProviderService.t)
    (caches : ProviderCaches) :
  forall (fs : FS) (calls : list call),
    Forall (fun e => exists cache,
                In cache caches
                /\ ProviderCache.needCacheArchive cache = true
                /\ e = cleanup_failure service cache)
           (fst (removeArchives service caches fs calls))
    /\ forall cache,
        In cache caches ->
        ProviderCache.needCacheArchive cache = true ->
        Util.FileExists (ArchiveFilename service cache)
                        (fst (snd (removeArchives service caches fs calls)))
        = true ->
        In (cleanup_failure service cache)
           (fst (removeArchives service caches fs calls)).
Proof.
  induction caches as [|cache caches IH]; intros fs calls; simpl.
  - split; [constructor | intros cache []].
  - pose proof (removeArchive_outcome service (mkMachine fs cache calls)) as Hout.
    destruct (removeArchive service (mkMachine fs cache calls)) as [r m].
    destruct (IH (m_fs m) (m_calls m)) as [IHall IHeach].
    pose proof (removeArchives_only_deletes service caches (m_fs m) (m_calls m))
      as Hsub.
    destruct (removeArchives service caches (m_fs m) (m_calls m))
      as [errs [fs' calls']].
    cbn [fst snd m_fs m_cache] in *.
    assert (Hrest : Forall (fun e => exists c,
                               (cache = c \/ In c caches)
                               /\ ProviderCache.needCacheArchive c = true
                               /\ e = cleanup_failure service c) errs).
    { eapply Forall_impl; [exact IHall|].
      intros e (c & Hin & Hflag & He). exists c. auto. }
    destruct r as [e|u].
    + destruct Hout as [Hflag He]. split.
      * constructor; [|exact Hrest]. exists cache. auto.
      * intros c [<- | Hin] Hc Hexists; [left; now symmetry|].
        right. now apply IHeach.
    + split; [exact Hrest|].
      intros c [<- | Hin] Hc Hexists; [|now apply IHeach].
      specialize (Hout Hc).
      rewrite (FileExists_mono (m_fs m) fs' _ Hsub Hexists) in Hout.
      discriminate Hout.
Qed.

(** *** The outstanding tasks finish, and the worker returns *)

Lemma step_RLock_enabled (env : Env) (s : State) (k : nat) :
  s_tasks s !! k = Some Spawned ->
  s_writer s = false ->
  exists s1,
    step env (EvTaskRLock k) s = Some s1
    /\ s_tasks s1 = <[k := Holding]> (s_tasks s)
    /\ s_service s1 = s_service s
    /\ s_writer s1 = false
    /\ s_worker s1 = s_worker s.
Proof.
  destruct s as [service disk calls tasks readers writer groupErr cancelled
                   worker waiter finished].
  cbn [s_tasks s_writer s_service s_worker]. intros Ht ->.
  cbn [step]. rewrite Ht. eexists. split; [reflexivity|]. cbn. auto.
Qed.

Lemma step_Run_enabled (env : Env) (s : State) (k : nat) :
  s_tasks s !! k = Some Holding ->
  k < length (ProviderService.providerCaches (s_service s)) ->
  exists s1 err,
    step env (EvTaskRun k) s = Some s1
    /\ s_tasks s1 = <[k := Finished err]> (s_tasks s)
    /\ length (ProviderService.providerCaches (s_service s1))
       = length (ProviderService.providerCaches (s_service s))
    /\ s_writer s1 = s_writer s
    /\ s_worker s1 = s_worker s.
Proof.
  destruct s as [service disk calls tasks readers writer groupErr cancelled
                   worker waiter finished].
  cbn [s_tasks s_writer s_service s_worker]. intros Ht Hk.
  destruct (lookup_lt_is_Some_2 _ _ Hk) as [cache Hcache].
  cbn [step]. rewrite Ht, Hcache.
  destruct (cacheTask env service (mkMachine disk cache calls)) as [r m].
  eexists. eexists. split; [reflexivity|]. cbn.
  rewrite length_insert. auto.
Qed.

Lemma tasks_can_finish (env : Env) :
  forall (d : nat) (s : State) (k : nat),
    k + d = length (s_tasks s) ->
    length (s_tasks s)
    = length (ProviderService.providerCaches (s_service s)) ->
    s_writer s = false ->
    (forall j t, j < k -> s_tasks s !! j = Some t -> is_finished t = true) ->
    exists evs s',
      run env evs s = Some s'
      /\ forallb is_finished (s_tasks s') = true
      /\ s_worker s' = s_worker s.
Proof.
  induction d as [|d IH]; intros s k Hk Hlen Hwriter Hdone.
  - exists [], s. split; [reflexivity|]. split; [|reflexivity].
    apply forallb_forall. intros t Hin.
    apply list_elem_of_In, list_elem_of_lookup in Hin as [j Hj].
    eapply Hdone; [|exact Hj]. apply lookup_lt_Some in Hj. lia.
  - assert (Hlt : k < length (s_tasks s)) by lia.
    destruct (lookup_lt_is_Some_2 _ _ Hlt) as [t Ht].
    assert (Hfrom_holding :
              forall s0,
                s_tasks s0 !! k = Some Holding ->
                length (s_tasks s0) = length (s_tasks s) ->
                length (s_tasks s0)
                = length (ProviderService.providerCaches (s_service s0)) ->
                s_writer s0 = false ->
                (forall j t, j < k -> s_tasks s0 !! j = Some t ->
                             is_finished t = true) ->
                exists evs s',
                  run env evs s0 = Some s'
                  /\ forallb is_finished (s_tasks s') = true
                  /\ s_worker s' = s_worker s0).
    { intros s0 Ht0 Hlen0 Hcaches0 Hwriter0 Hdone0.
      destruct (step_Run_enabled env s0 k Ht0)
        as (s1 & err & Hstep & Htasks & Hcaches & Hw1 & Hworker1);
        [rewrite <- Hcaches0, Hlen0; exact Hlt|].
      destruct (IH s1 (S k)) as (evs & s' & Hrun & Hall & Hworker).
      - rewrite Htasks, length_insert, Hlen0. lia.
      - now rewrite Htasks, length_insert, Hcaches.
      - now rewrite Hw1.
      - intros j t' Hj Hlook. rewrite Htasks in Hlook.
        destruct (decide (j = k)) as [->|Hne].
        + rewrite list_lookup_insert_eq in Hlook by (rewrite Hlen0; exact Hlt).
          now injection Hlook as <-.
        + rewrite list_lookup_insert_ne in Hlook by congruence.
          apply (Hdone0 j t'); [lia | exact Hlook].
      - exists (EvTaskRun k :: evs), s'. simpl. rewrite Hstep.
        split; [exact Hrun|]. split; [exact Hall | congruence]. }
    destruct t as [| |err].
    + destruct (step_RLock_enabled env s k Ht Hwriter)
        as (s1 & Hstep & Htasks & Hservice & Hw1 & Hworker1).
      destruct (Hfrom_holding s1) as (evs & s' & Hrun & Hall & Hworker).
      * rewrite Htasks. now apply list_lookup_insert_eq.
      * now rewrite Htasks, length_insert.
      * now rewrite Htasks, length_insert, Hservice.
      * exact Hw1.
      * intros j t' Hj Hlook. rewrite Htasks in Hlook.
        rewrite list_lookup_insert_ne in Hlook by lia.
        now apply (Hdone j t').
      * exists (EvTaskRLock k :: evs), s'. simpl. rewrite Hstep.
        split; [exact Hrun|]. split; [exact Hall | congruence].
    + now apply Hfrom_holding.
    + apply (IH s (S k)); [lia | exact Hlen | exact Hwriter |].
      intros j t' Hj Hlook. destruct (decide (j = k)) as [->|Hne].
      * rewrite Ht in Hlook. now injection Hlook as <-.
      * apply (Hdone j t'); [lia | exact Hlook].
Qed.

(** A caller of [WaitForCacheReady] that holds the gate lets go of it. *)
Lemma gate_can_open (env : Env) (s : State) :
  closing_inv s ->
  exists evs s',
    run env evs s = Some s'
    /\ s_writer s' = false
    /\ s_tasks s' = s_tasks s
    /\ s_service s' = s_service s
    /\ s_worker s' = s_worker s.
Proof.
  intros (_ & Hlocked).
  destruct (s_writer s) eqn:Hwriter.
  - destruct (Hlocked eq_refl) as [n Hn].
    destruct s as [service disk calls tasks readers writer groupErr cancelled
                     worker waiter finished].
    cbn [s_waiter] in Hn. subst waiter.
    exists [EvWaitUnlock]. eexists. split; [reflexivity|]. cbn. auto.
  - exists [], s. auto.
Qed.

Lemma return_enabled (env : Env) (s : State) :
  s_worker s = Draining ->
  (is_Some (step env EvWorkerReturn s) <->
   forallb is_finished (s_tasks s) = true).
Proof.
  destruct s as [service disk calls tasks readers writer groupErr cancelled
                   worker waiter finished].
  cbn [s_worker s_tasks]. intros ->. cbn [step].
  destruct (forallb is_finished tasks).
  - destruct (removeArchives _ _ _ _) as [errs [disk' calls']].
    split; [reflexivity | eauto].
  - split; [intros [x Hx]; discriminate Hx | discriminate].
Qed.

Lemma return_result (env : Env) (s s' : State) :
  step env EvWorkerReturn s = Some s' ->
  s_worker s = Draining
  /\ forallb is_finished (s_tasks s) = true
  /\ s_worker s'
     = Returned
         (aggregate (s_groupErr s)
            (fst (removeArchives (s_service s)
                    (ProviderService.providerCaches (s_service s))
                    (s_disk s) (s_calls s))))
  /\ s_disk s'
     = fst (snd (removeArchives (s_service s)
                   (ProviderService.providerCaches (s_service s))
                   (s_disk s) (s_calls s))).
Proof.
  destruct s as [service disk calls tasks readers writer groupErr cancelled
                   worker waiter finished].
  cbn [step s_worker s_tasks s_groupErr s_service s_disk s_calls].
  destruct worker; try discriminate.
  destruct (forallb is_finished tasks); [|discriminate].
  destruct (removeArchives _ _ _ _) as [errs [disk' calls']].
  intros [= <-]. cbn. auto.
Qed.

(** C4, as the code has it.  Once the context is cancelled the running
    worker loop closes the dispatch channel and waits: from then on it can
    return exactly when every task has returned, the outstanding tasks can
    always run to their end, and the worker then does return.  When it
    returns, every task has returned, the cleanup has gone over every
    tracked unit, and the result is the error of the first task that
    failed, if any, followed by the cleanup errors.  That first error is
    the error of a task, and there is none only when every task succeeded;
    errors of tasks that failed later are not in the result, as
    [errGroup.Wait] returns the first error only.  Every cleanup error is
    the failed removal of the archive of a tracked unit whose flag is set,
    and every such unit whose archive is still on disk after the return
    has its failure in the result. *)
Theorem worker_shutdown (env : Env) (baseCacheDir : string)
    (needCacheArchive : bool) (disk0 : FS) (evs : list event) (s : State)
    (Hrun : run env evs (init (NewProviderService baseCacheDir needCacheArchive)
                              disk0) = Some s)
    (Hworker : s_worker s = Running)
    (Hcancelled : s_cancelled s = true) :
  exists s1,
    step env EvCtxDone s = Some s1
    /\ closed (ProviderService.providerCacheCh (s_service s1)) = true
    /\ s_worker s1 = Draining
    /\ forall evs' s2,
        run env evs' s1 = Some s2 ->
        (s_worker s2 = Draining ->
         (is_Some (step env EvWorkerReturn s2) <->
          forallb is_finished (s_tasks s2) = true)
         /\ exists evs'' s3 errs,
             run env (evs'' ++ [EvWorkerReturn]) s2 = Some s3
             /\ s_worker s3 = Returned errs)
        /\ forall s3,
            step env EvWorkerReturn s2 = Some s3 ->
            exists cleanupErrs,
              s_worker s3
              = Returned (aggregate (first_failure (s_finished s2)) cleanupErrs)
              /\ forallb is_finished (s_tasks s2) = true
              /\ (forall e,
                     first_failure (s_finished s2) = Some e ->
                     exists i, s_tasks s2 !! i = Some (Finished (Some e)))
              /\ (first_failure (s_finished s2) = None ->
                  forall i t, s_tasks s2 !! i = Some t -> t = Finished None)
              /\ Forall (fun e =>
                           exists cache,
                             In cache (ProviderService.providerCaches (s_service s2))
                             /\ ProviderCache.needCacheArchive cache = true
                             /\ e = cleanup_failure (s_service s2) cache)
                        cleanupErrs
              /\ forall cache,
                  In cache (ProviderService.providerCaches (s_service s2)) ->
                  ProviderCache.needCacheArchive cache = true ->
                  Util.FileExists (ArchiveFilename (s_service s2) cache)
                                  (s_disk s3) = true ->
                  In (cleanup_failure (s_service s2) cache) cleanupErrs.
Proof.
  assert (Hstep1 : exists s1,
             step env EvCtxDone s = Some s1
             /\ closed (ProviderService.providerCacheCh (s_service s1)) = true
             /\ s_worker s1 = Draining).
  { destruct s as [service disk calls tasks readers writer groupErr cancelled
                     worker waiter finished].
    cbn [s_worker s_cancelled] in Hworker, Hcancelled. subst worker cancelled.
    eexists. split; [reflexivity|]. split; reflexivity. }
  destruct Hstep1 as (s1 & Hstep1 & Hclosed & Hdraining).
  exists s1. split; [exact Hstep1|]. split; [exact Hclosed|].
  split; [exact Hdraining|].
  intros evs' s2 Hrun2.
  assert (Hreach : forall P : State -> Prop,
             (forall ev a b, step env ev a = Some b -> P a -> P b) ->
             P (init (NewProviderService baseCacheDir needCacheArchive) disk0) ->
             P s2).
  { intros P Hstep Hinit.
    eapply (run_invariant env P Hstep); [exact Hrun2|].
    eapply Hstep; [exact Hstep1|].
    eapply (run_invariant env P Hstep); [exact Hrun | exact Hinit]. }
  assert (Hgroup : group_inv s2)
    by (apply Hreach; [apply step_group_inv | reflexivity]).
  assert (Hready : ready_inv s2)
    by (apply Hreach; [apply step_ready_inv | apply init_ready_inv]).
  assert (Hclosing : closing_inv s2)
    by (apply Hreach; [apply step_closing_inv | apply init_closing_inv]).
  assert (Hfinished : finished_inv s2)
    by (apply Hreach; [apply step_finished_inv | apply init_finished_inv]).
  split.
  - intros Hdraining2. split; [now apply return_enabled|].
    destruct (gate_can_open env s2 Hclosing)
      as (evsA & sA & HrunA & HwriterA & HtasksA & HserviceA & HworkerA).
    destruct (tasks_can_finish env (length (s_tasks sA)) sA 0)
      as (evsB & sB & HrunB & HallB & HworkerB).
    + reflexivity.
    + rewrite HtasksA, HserviceA. apply Hready.
    + exact HwriterA.
    + intros j t Hj. lia.
    + assert (HdrainingB : s_worker sB = Draining) by congruence.
      destruct (proj2 (return_enabled env sB HdrainingB) HallB) as [s3 Hret].
      destruct (return_result env sB s3 Hret) as (_ & _ & Hres & _).
      exists (evsA ++ evsB), s3. eexists. split; [|exact Hres].
      rewrite !run_app, HrunA, HrunB. simpl. now rewrite Hret.
  - intros s3 Hret.
    destruct (return_result env s2 s3 Hret) as (_ & Hall & Hres & Hdisk).
    destruct (removeArchives_reports (s_service s2)
                (ProviderService.providerCaches (s_service s2))
                (s_disk s2) (s_calls s2)) as [Hform Hreport].
    exists (fst (removeArchives (s_service s2)
                   (ProviderService.providerCaches (s_service s2))
                   (s_disk s2) (s_calls s2))).
    split; [rewrite Hres; now rewrite Hgroup|].
    split; [exact Hall|].
    split; [|split; [|split]].
    + intros e He. destruct (first_failure_Some _ _ He) as [i Hi].
      exists i. now apply Hfinished.
    + intros Hnone i t Ht.
      assert (Hfin : is_finished t = true).
      { eapply (proj1 (forallb_forall _ _) Hall).
        apply list_elem_of_In. eapply list_elem_of_lookup_2. exact Ht. }
      destruct t as [| |[e|]]; try discriminate Hfin; [|reflexivity].
      exfalso. apply (first_failure_None _ i e Hnone). now apply Hfinished.
    + exact Hform.
    + intros cache Hin Hflag Hexists. apply Hreport; [exact Hin | exact Hflag|].
      now rewrite <- Hdisk.
Qed.

Lemma worker_shutdown_witness :
  exists s s1,
    run quiet [EvRunCacheWorker; EvCacheProvider aws; EvCancel]
        (init (NewProviderService "/cache" false) ∅) = Some s
    /\ step quiet EvCtxDone s = Some s1
    /\ closed (ProviderService.providerCacheCh (s_service s1)) = true
    /\ ~ is_Some (step quiet EvWorkerReturn s1)
    /\ exists evs'' s3 errs,
        run quiet (evs'' ++ [EvWorkerReturn]) s1 = Some s3
        /\ s_worker s3 = Returned errs.
Proof.
  assert (Hfacts :
            match run quiet [EvRunCacheWorker; EvCacheProvider aws; EvCancel]
                      (init (NewProviderService "/cache" false) ∅) with
            | Some s => (s_worker s, s_cancelled s, s_tasks s)
            | None => (NotStarted, false, [])
            end = (Running, true, [Spawned]))
    by (vm_compute; reflexivity).
  destruct (run quiet [EvRunCacheWorker; EvCacheProvider aws; EvCancel]
                (init (NewProviderService "/cache" false) ∅))
    as [s|] eqn:Hrun; [|discriminate Hfacts].
  injection Hfacts as Hworker Hcancelled Htasks.
  destruct (worker_shutdown quiet "/cache" false ∅
              [EvRunCacheWorker; EvCacheProvider aws; EvCancel] s
              Hrun Hworker Hcancelled)
    as (s1 & Hstep & Hclosed & Hdraining & Hlater).
  destruct (Hlater [] s1 eq_refl) as [Hwaits _].
  destruct (Hwaits Hdraining) as [Henabled Hreturns].
  exists s, s1. split; [reflexivity|]. split; [exact Hstep|].
  split; [exact Hclosed|]. split; [|exact Hreturns].
  intros Hsome. apply Henabled in Hsome.
  assert (Htasks1 : s_tasks s1 = s_tasks s).
  { destruct s as [service disk calls tasks readers writer groupErr cancelled
                     worker waiter finished].
    cbn [s_worker s_cancelled] in Hworker, Hcancelled. subst worker cancelled.
    cbn [step] in Hstep. injection Hstep as <-. reflexivity. }
  rewrite Htasks1, Htasks in Hsome. discriminate Hsome.
Defined.

(** C4 as stated fails.  Two units fail to warm up, each with its own
    error; the worker returns an aggregate that holds the first of the two
    errors only. *)
Lemma worker_shutdown_counterexample :
  exists s,
    run quiet [EvRunCacheWorker;
               EvCacheProvider aws_unresolved; EvCacheProvider random_unresolved;
               EvTaskRLock 0; EvTaskRLock 1; EvTaskRun 0; EvTaskRun 1;
               EvCtxDone; EvWorkerReturn]
        (init (NewProviderService "/cache" false) ∅) = Some s
    /\ s_finished s = [(0, Some (DownloadURLUndefined aws_unresolved));
                       (1, Some (DownloadURLUndefined random_unresolved))]
    /\ s_worker s = Returned [DownloadURLUndefined aws_unresolved]
    /\ ~ In (DownloadURLUndefined random_unresolved)
            [DownloadURLUndefined aws_unresolved].
Proof.
  assert (Hfacts :
            match run quiet [EvRunCacheWorker;
                             EvCacheProvider aws_unresolved;
                             EvCacheProvider random_unresolved;
                             EvTaskRLock 0; EvTaskRLock 1; EvTaskRun 0; EvTaskRun 1;
                             EvCtxDone; EvWorkerReturn]
                      (init (NewProviderService "/cache" false) ∅) with
            | Some s => (s_finished s, s_worker s)
            | None => ([], NotStarted)
            end
            = ([(0, Some (DownloadURLUndefined aws_unresolved));
                (1, Some (DownloadURLUndefined random_unresolved))],
               Returned [DownloadURLUndefined aws_unresolved]))
    by (vm_compute; reflexivity).
  destruct (run quiet _ _) as [s|]; [|discriminate Hfacts].
  injection Hfacts as Hfinished Hworker.
  exists s. split; [reflexivity|]. split; [exact Hfinished|].
  split; [exact Hworker|].
  intros [H|[]]. discriminate H.
Qed.
